(** * SystemInfoProvider, its singleton holder and the SQLite integrity test

    A shallow embedding of

    - chrome/browser/extensions/api/system_info/system_info_provider.h
      (the coalescing query coordinator [SystemInfoProvider<T>]), and
    - chrome/browser/diagnostics/sqlite_diagnostics.cc
      ([SqliteIntegrityTest::ExecuteImpl]),

    together with the properties the specification states about them. *)

From Stdlib Require Import Ascii String DecimalString ZArith List Bool Arith Lia.
Import ListNotations.

Set Implicit Arguments.

(* ================================================================== *)
(** ** The provider                                                    *)
(* ================================================================== *)

Module SystemInfoProvider.

Section Provider.

(** [QueryInfoCompletionCallback] is a [base::Callback<void(bool)>]: client
    code.  The only public entry point of the provider a running callback
    can reach is [StartQueryInfo], so a client is described by what its
    callbacks do to the client's own state ([World]) and by the callbacks
    they pass to [StartQueryInfo], in order, while they run.  Callbacks are
    never null here ([DCHECK(!callback.is_null())]). *)
Variable Callback : Type.
Variable World : Type.
Variable Run : Callback -> bool -> World -> World * list Callback.

(** What an observer of the UI thread and of the worker pool sees. *)
Inductive Event : Type :=
| EvStartQueryInfo (callback : Callback)   (* StartQueryInfo(callback) entered *)
| EvPrepare                                (* PrepareQueryOnUIThread() *)
| EvPostTask                               (* PostTaskAndReplyWithResult(...) *)
| EvQueryInfo (success : bool)             (* QueryInfo() ran on the pool *)
| EvRun (callback : Callback) (success : bool). (* callback.Run(success) *)

(** The members [callbacks_] and [is_waiting_for_completion_] of the class,
    and the part of the environment they interact with: the tasks posted to
    [worker_pool_], the replies pending on the UI thread, the state of the
    clients, and the trace of what has happened.  [callbacks_] is a
    [std::queue]: the head of the list is [front()], [push] appends at the
    end.  The member [info_] is written by [QueryInfo] only, which is pure
    virtual; the functions below never touch it. *)
Record Provider : Type := mkProvider {
  callbacks_ : list Callback;
  is_waiting_for_completion_ : bool;
  worker_pool_ : nat;       (* query tasks posted and neither run nor dropped *)
  ui_replies : list bool;   (* results whose OnQueryCompleted reply is pending *)
  world : World;
  trace : list Event
}.

Definition set_callbacks (q : list Callback) (p : Provider) : Provider :=
  mkProvider q (is_waiting_for_completion_ p) (worker_pool_ p)
             (ui_replies p) (world p) (trace p).

Definition set_waiting (b : bool) (p : Provider) : Provider :=
  mkProvider (callbacks_ p) b (worker_pool_ p) (ui_replies p) (world p)
             (trace p).

Definition set_pool (n : nat) (p : Provider) : Provider :=
  mkProvider (callbacks_ p) (is_waiting_for_completion_ p) n (ui_replies p)
             (world p) (trace p).

Definition set_replies (r : list bool) (p : Provider) : Provider :=
  mkProvider (callbacks_ p) (is_waiting_for_completion_ p) (worker_pool_ p)
             r (world p) (trace p).

Definition set_world (w : World) (p : Provider) : Provider :=
  mkProvider (callbacks_ p) (is_waiting_for_completion_ p) (worker_pool_ p)
             (ui_replies p) w (trace p).

Definition record (e : Event) (p : Provider) : Provider :=
  mkProvider (callbacks_ p) (is_waiting_for_completion_ p) (worker_pool_ p)
             (ui_replies p) (world p) (trace p ++ [e]).

(** The constructor: [is_waiting_for_completion_(false)], an empty queue. *)
Definition SystemInfoProvider (w : World) : Provider :=
  mkProvider [] false 0 [] w [].

(** [callbacks_.push(callback)] and [callbacks_.pop()]; the loop pops a
    queue that is not empty. *)
Definition push (callback : Callback) (p : Provider) : Provider :=
  set_callbacks (callbacks_ p ++ [callback]) p.

Definition pop (p : Provider) : Provider :=
  set_callbacks (tl (callbacks_ p)) p.

(** [virtual void PrepareQueryOnUIThread() {}] *)
Definition PrepareQueryOnUIThread (p : Provider) : Provider :=
  record EvPrepare p.

(** Modelled from the spec: the worker pool.  [base::SequencedWorkerPool]
    and [base::PostTaskAndReplyWithResult] are not part of the sources at
    hand.  Posting hands the task [QueryInfo], with the reply
    [OnQueryCompleted], to the provider's sequenced task runner; the pool
    later runs the task and posts the reply to the UI thread, or (shutdown,
    CONTINUE_ON_SHUTDOWN) drops the task, in which case no reply is ever
    posted.  The boolean that posting returns is ignored by the caller. *)
Definition PostTaskAndReplyWithResult (p : Provider) : Provider :=
  set_pool (S (worker_pool_ p)) (record EvPostTask p).

(** [StartQueryInfoPostInitialization] *)
Definition StartQueryInfoPostInitialization (p : Provider) : Provider :=
  PostTaskAndReplyWithResult (PrepareQueryOnUIThread p).

(** [virtual void InitializeProvider(const base::Closure& cb) { cb.Run(); }] *)
Definition InitializeProvider
    (do_query_info_callback : Provider -> Provider) (p : Provider)
  : Provider :=
  do_query_info_callback p.

(** [StartQueryInfo] *)
Definition StartQueryInfo (callback : Callback) (p : Provider) : Provider :=
  let p := push callback (record (EvStartQueryInfo callback) p) in
  if is_waiting_for_completion_ p then p
  else InitializeProvider StartQueryInfoPostInitialization
                          (set_waiting true p).

(** The calls to [StartQueryInfo] a piece of client code makes, in order. *)
Definition StartQueryInfos (cbs : list Callback) (p : Provider) : Provider :=
  fold_left (fun q cb => StartQueryInfo cb q) cbs p.

(** [callback.Run(success)], stopped after the callback has made its first
    [k] calls to [StartQueryInfo]. *)
Definition run_callback_upto
    (k : nat) (callback : Callback) (success : bool) (p : Provider)
  : Provider :=
  let (w, reqs) := Run callback success (world p) in
  StartQueryInfos (firstn k reqs)
                  (set_world w (record (EvRun callback success) p)).

(** [callback.Run(success)] *)
Definition run_callback
    (callback : Callback) (success : bool) (p : Provider) : Provider :=
  let (w, reqs) := Run callback success (world p) in
  StartQueryInfos reqs (set_world w (record (EvRun callback success) p)).

(** The body of the loop of [OnQueryCompleted], entered with
    [callbacks_.front() = callback]: run the callback, then pop it. *)
Definition loop_body
    (callback : Callback) (success : bool) (p : Provider) : Provider :=
  pop (run_callback callback success p).

(** [while (!callbacks_.empty()) { ... }].  The loop need not terminate, so
    it is given fuel: [None] means that [fuel] iterations were not enough. *)
Fixpoint drain (fuel : nat) (success : bool) (p : Provider)
  : option Provider :=
  match callbacks_ p with
  | [] => Some p
  | callback :: _ =>
      match fuel with
      | O => None
      | S fuel' => drain fuel' success (loop_body callback success p)
      end
  end.

(** [OnQueryCompleted] *)
Definition OnQueryCompleted (fuel : nat) (success : bool) (p : Provider)
  : option Provider :=
  match drain fuel success p with
  | Some p' => Some (set_waiting false p')
  | None => None
  end.

(** *** Executions *)

(** What can happen to a provider: a client calls [StartQueryInfo] on the
    UI thread; the pool runs the posted task ([QueryInfo] is pure virtual,
    its result is an input); the pool drops the posted task; the UI thread
    runs the pending reply. *)
Inductive Action : Type :=
| CallStartQueryInfo (callback : Callback)
| PoolRunsQueryInfo (success : bool)
| PoolDropsTask
| ReplyOnQueryCompleted.

Definition exec (fuel : nat) (a : Action) (p : Provider) : option Provider :=
  match a with
  | CallStartQueryInfo callback => Some (StartQueryInfo callback p)
  | PoolRunsQueryInfo success =>
      match worker_pool_ p with
      | O => None
      | S n =>
          Some (set_replies (ui_replies p ++ [success])
                  (set_pool n (record (EvQueryInfo success) p)))
      end
  | PoolDropsTask =>
      match worker_pool_ p with
      | O => None
      | S n => Some (set_pool n p)
      end
  | ReplyOnQueryCompleted =>
      match ui_replies p with
      | [] => None
      | success :: rest => OnQueryCompleted fuel success (set_replies rest p)
      end
  end.

Fixpoint run (fuel : nat) (acts : list Action) (p : Provider)
  : option Provider :=
  match acts with
  | [] => Some p
  | a :: acts' =>
      match exec fuel a p with
      | Some p' => run fuel acts' p'
      | None => None
      end
  end.

Definition reachable (p : Provider) : Prop :=
  exists w fuel acts, run fuel acts (SystemInfoProvider w) = Some p.

(** *** Reading a trace *)

Definition runs_of (e : Event) : list (Callback * bool) :=
  match e with EvRun c b => [(c, b)] | _ => [] end.
Definition requests_of (e : Event) : list Callback :=
  match e with EvStartQueryInfo c => [c] | _ => [] end.
Definition posts_of (e : Event) : list unit :=
  match e with EvPostTask => [tt] | _ => [] end.
Definition prepares_of (e : Event) : list unit :=
  match e with EvPrepare => [tt] | _ => [] end.
Definition queries_of (e : Event) : list bool :=
  match e with EvQueryInfo b => [b] | _ => [] end.

(** The callback invocations, the calls to [StartQueryInfo], the number of
    dispatches and the executions of the query, in the order of the trace. *)
Definition runs (l : list Event) : list (Callback * bool) :=
  flat_map runs_of l.
Definition requests (l : list Event) : list Callback :=
  flat_map requests_of l.
Definition posts (l : list Event) : nat := length (flat_map posts_of l).
Definition prepares (l : list Event) : nat := length (flat_map prepares_of l).
Definition queries (l : list Event) : list bool := flat_map queries_of l.

(** The state in which nothing is in flight. *)
Definition Idle (p : Provider) : Prop :=
  is_waiting_for_completion_ p = false /\ callbacks_ p = [] /\
  worker_pool_ p = 0 /\ ui_replies p = [].

(** The client's re-requests are well founded: a callback only requests
    callbacks of smaller rank. *)
Definition well_founded_client (rank : Callback -> nat) : Prop :=
  forall cb b w c, In c (snd (Run cb b w)) -> rank c < rank cb.

(** A stretch of trace in which nothing is dispatched and no query runs. *)
Definition undispatched (l : list Event) : Prop :=
  posts l = 0 /\ prepares l = 0 /\ queries l = [].

(** The queue and the flag agree: callbacks wait if and only if the flag is
    set. *)
Definition queue_matches_flag (p : Provider) : Prop :=
  is_waiting_for_completion_ p = true <-> callbacks_ p <> [].

(** What holds of a provider between two tasks of the UI thread. *)
Record consistent (p : Provider) : Prop := mkConsistent {
  idle_when_clear : is_waiting_for_completion_ p = false -> Idle p;
  queued_when_set : is_waiting_for_completion_ p = true -> callbacks_ p <> [];
  one_in_flight :
    is_waiting_for_completion_ p = true ->
    worker_pool_ p + length (ui_replies p) <= 1;
  fifo_so_far :
    map fst (runs (trace p)) ++ callbacks_ p = requests (trace p)
}.

(** The actions of one cycle: a first request, requests made while the task
    sits in the pool, the query, requests made before the reply runs, and the
    reply. *)
Definition cycle (first : Callback) (before : list Callback) (success : bool)
    (after : list Callback) : list Action :=
  CallStartQueryInfo first ::
  map CallStartQueryInfo before ++
  PoolRunsQueryInfo success ::
  map CallStartQueryInfo after ++
  [ReplyOnQueryCompleted].

(** The trace of the cycle up to the reply. *)
Definition cycle_prefix (first : Callback) (before : list Callback)
    (success : bool) (after : list Callback) : list Event :=
  [EvStartQueryInfo first; EvPrepare; EvPostTask] ++
  map EvStartQueryInfo before ++
  [EvQueryInfo success] ++
  map EvStartQueryInfo after.

(** The state at the head of the loop of [OnQueryCompleted] after [n]
    iterations; [None] when the loop has left before. *)
Fixpoint loop_head (n : nat) (success : bool) (p : Provider)
  : option Provider :=
  match n with
  | O => Some p
  | S n' =>
      match callbacks_ p with
      | [] => None
      | callback :: _ => loop_head n' success (loop_body callback success p)
      end
  end.

(** A trace and a provider with the value handed to the callbacks
    forgotten. *)
Definition forget_outcome (e : Event) : Event :=
  match e with
  | EvRun callback _ => EvRun callback false
  | _ => e
  end.

Definition forget_outcomes (p : Provider) : Provider :=
  mkProvider (callbacks_ p) (is_waiting_for_completion_ p) (worker_pool_ p)
             (ui_replies p) (world p) (map forget_outcome (trace p)).

(** The flag is set, and neither a task nor a reply is left to clear it. *)
Definition stranded (p : Provider) : Prop :=
  is_waiting_for_completion_ p = true /\ worker_pool_ p = 0 /\
  ui_replies p = [].

End Provider.

Arguments EvPrepare {Callback}.
Arguments EvPostTask {Callback}.
Arguments EvQueryInfo {Callback} success.

End SystemInfoProvider.

(* ================================================================== *)
(** ** The single shared provider instance                             *)
(* ================================================================== *)

Module Singleton.

Section Holder.

(** The provider objects.  [new_I n] is the object that the [n]-th
    evaluation of [new I()] builds ([n] counts from 0). *)
Variable Instance : Type.
Variable new_I : nat -> Instance.

(** [scoped_refptr<SystemInfoProvider<T> >]: null, or a reference. *)
Definition scoped_refptr : Type := option Instance.

(** [static base::LazyInstance<scoped_refptr<...> > provider_], and the
    number of evaluations of [new I()] so far. *)
Record Holder : Type := mkHolder {
  provider_ : scoped_refptr;
  constructions : nat
}.

(** The lazy instance starts out holding a null reference. *)
Definition LazyInstance : Holder := mkHolder None 0.

(** [GetInstance<I>()]: the pointer returned, and the holder afterwards. *)
Definition GetInstance (h : Holder) : scoped_refptr * Holder :=
  let h :=
    match provider_ h with
    | None => mkHolder (Some (new_I (constructions h))) (S (constructions h))
    | Some _ => h
    end in
  (provider_ h, h).

(** [InitializeForTesting(provider)]; [None] is the failed
    [DCHECK(provider.get() != NULL)]. *)
Definition InitializeForTesting (provider : scoped_refptr) (h : Holder)
  : option Holder :=
  match provider with
  | None => None
  | Some _ => Some (mkHolder provider (constructions h))
  end.

(** [n] calls of [GetInstance] in a row: the pointers returned, in order,
    and the holder afterwards. *)
Fixpoint GetInstances (n : nat) (h : Holder)
  : list scoped_refptr * Holder :=
  match n with
  | O => ([], h)
  | S n' =>
      let (r, h1) := GetInstance h in
      let (rs, h2) := GetInstances n' h1 in
      (r :: rs, h2)
  end.

End Holder.

End Singleton.

(* ================================================================== *)
(** ** SqliteIntegrityTest::ExecuteImpl                                *)
(* ================================================================== *)

Module SqliteDiagnostics.

Open Scope string_scope.
Open Scope Z_scope.

Definition FilePath : Type := string.

(** The outcome codes the test records (chrome/browser/diagnostics). *)
Inductive OutcomeCode : Type :=
| DIAG_SQLITE_FILE_NOT_FOUND
| DIAG_SQLITE_FILE_NOT_FOUND_OK
| DIAG_SQLITE_CANNOT_OPEN_DB
| DIAG_SQLITE_ERROR_HANDLER_CALLED
| DIAG_SQLITE_DB_LOCKED
| DIAG_SQLITE_PRAGMA_FAILED
| DIAG_SQLITE_DB_CORRUPTED.

Inductive TestResult : Type := TEST_OK | TEST_FAIL_CONTINUE.

(** The call of the base class [DiagnosticsTest] by which the outcome is
    recorded. *)
Inductive Recorded : Type :=
| RecordOutcome (code : OutcomeCode) (additional_info : string)
                (result : TestResult)
| RecordFailure (code : OutcomeCode) (additional_info : string)
| RecordSuccess (additional_info : string).

(** One invocation of the error callback: the arguments it stores. *)
Record SqliteError : Type := mkSqliteError {
  sqlite_error : Z;
  last_errno : Z;
  message : string
}.

(** [ErrorRecorder] *)
Record ErrorRecorder : Type := mkErrorRecorder {
  has_error_ : bool;
  sqlite_error_ : Z;
  last_errno_ : Z;
  message_ : string
}.

Definition ErrorRecorder_new : ErrorRecorder := mkErrorRecorder false 0 0 "".

Definition RecordSqliteError (r : ErrorRecorder) (e : SqliteError)
  : ErrorRecorder :=
  mkErrorRecorder true (sqlite_error e) (last_errno e) (message e).

Definition has_error (r : ErrorRecorder) : bool := has_error_ r.

(** [base::IntToString] *)
Definition IntToString (n : Z) : string :=
  NilZero.string_of_int (Z.to_int n).

(** [StringPrintf("SQLite error: %d, Last Errno: %d: %s", ...)] *)
Definition FormatError (r : ErrorRecorder) : string :=
  "SQLite error: " ++ IntToString (sqlite_error_ r) ++ ", Last Errno: " ++
  IntToString (last_errno_ r) ++ ": " ++ message_ r.

(** What the SQLite library does with the file at a path, as far as the test
    observes it: the result of each call, and the invocations of the error
    callback each call makes. *)
Record Database : Type := mkDatabase {
  Open : bool;                          (* database.Open(path) *)
  Open_errors : list SqliteError;
  is_valid : bool;                      (* statement.is_valid() *)
  GetUniqueStatement_errors : list SqliteError;
  GetErrorCode : Z;                     (* database.GetErrorCode() *)
  Step_rows : list string;              (* ColumnString(0) of each row stepped *)
  Step_errors : list SqliteError
}.

Definition SQLITE_BUSY : Z := 5.

Section Environment.

(** [base::FilePath], the profile directory and the file system. *)
Variable IsAbsolute : FilePath -> bool.
Variable Append : FilePath -> FilePath -> FilePath.
Variable GetUserDefaultProfileDir : FilePath.
Variable PathExists : FilePath -> bool.
Variable sqlite : FilePath -> Database.

Record SqliteIntegrityTest : Type := mkSqliteIntegrityTest {
  critical_ : bool;
  db_path_ : FilePath
}.

(** The path the test checks. *)
Definition resolved_path (t : SqliteIntegrityTest) : FilePath :=
  if negb (IsAbsolute (db_path_ t))
  then Append GetUserDefaultProfileDir (db_path_ t)
  else db_path_ t.

(** [while (statement.Step()) { if ("ok" != result) ++errors; }].  The
    counter is an [int]; the pragma reports at most 100 rows, so that it is
    counted here without a bound. *)
Definition count_errors (rows : list string) : Z :=
  fold_left
    (fun errors result => if negb (result =? "ok")%string
                          then errors + 1 else errors)
    rows 0.

(** [ExecuteImpl]: what is recorded, and the value returned. *)
Definition ExecuteImpl (t : SqliteIntegrityTest) : Recorded * bool :=
  let path := resolved_path t in
  if negb (PathExists path) then
    if critical_ t
    then (RecordOutcome DIAG_SQLITE_FILE_NOT_FOUND "File not found"
                        TEST_FAIL_CONTINUE, true)
    else (RecordOutcome DIAG_SQLITE_FILE_NOT_FOUND_OK
                        "File not found (but that is OK)" TEST_OK, true)
  else
    let database := sqlite path in
    let recorder := ErrorRecorder_new in
    let recorder := fold_left RecordSqliteError (Open_errors database)
                              recorder in
    if negb (Open database) then
      (RecordFailure DIAG_SQLITE_CANNOT_OPEN_DB
                     "Cannot open DB. Possibly corrupted", true)
    else if has_error recorder then
      (RecordFailure DIAG_SQLITE_ERROR_HANDLER_CALLED
                     (FormatError recorder), true)
    else
      let recorder :=
        fold_left RecordSqliteError (GetUniqueStatement_errors database)
                  recorder in
      if has_error recorder then
        (RecordFailure DIAG_SQLITE_ERROR_HANDLER_CALLED
                       (FormatError recorder), true)
      else if negb (is_valid database) then
        let error := GetErrorCode database in
        if SQLITE_BUSY =? error
        then (RecordFailure DIAG_SQLITE_DB_LOCKED
                            "Database locked by another process", false)
        else (RecordFailure DIAG_SQLITE_PRAGMA_FAILED
                            ("Pragma failed. Error: " ++ IntToString error),
              false)
      else
        let errors := count_errors (Step_rows database) in
        let recorder :=
          fold_left RecordSqliteError (Step_errors database) recorder in
        if has_error recorder then
          (RecordFailure DIAG_SQLITE_ERROR_HANDLER_CALLED
                         (FormatError recorder), true)
        else if negb (errors =? 0) then
          (RecordFailure DIAG_SQLITE_DB_CORRUPTED
             ("Database corruption detected: " ++
              (IntToString errors ++ " errors")), true)
        else (RecordSuccess "No corruption detected", true).

End Environment.

(** The outcomes the specification lists for the checker. *)
Inductive CheckResult : Type :=
| ok
| corrupted (n : Z)
| notFound
| cannotOpen
| locked.

(** What the test records for each of them. *)
Definition records (critical : bool) (o : CheckResult) : Recorded :=
  match o with
  | ok => RecordSuccess "No corruption detected"
  | corrupted n =>
      RecordFailure DIAG_SQLITE_DB_CORRUPTED
        ("Database corruption detected: " ++ (IntToString n ++ " errors"))
  | notFound =>
      if critical
      then RecordOutcome DIAG_SQLITE_FILE_NOT_FOUND "File not found"
                         TEST_FAIL_CONTINUE
      else RecordOutcome DIAG_SQLITE_FILE_NOT_FOUND_OK
                         "File not found (but that is OK)" TEST_OK
  | cannotOpen =>
      RecordFailure DIAG_SQLITE_CANNOT_OPEN_DB
                    "Cannot open DB. Possibly corrupted"
  | locked =>
      RecordFailure DIAG_SQLITE_DB_LOCKED "Database locked by another process"
  end.

(** The outcomes of the code: those of the specification, and two more. *)
Inductive Classification : Type :=
| listed (o : CheckResult)
| pragmaFailed (error : Z)
| errorHandlerCalled (recorder : ErrorRecorder).

Definition records_class (critical : bool) (c : Classification) : Recorded :=
  match c with
  | listed o => records critical o
  | pragmaFailed error =>
      RecordFailure DIAG_SQLITE_PRAGMA_FAILED
                    ("Pragma failed. Error: " ++ IntToString error)
  | errorHandlerCalled recorder =>
      RecordFailure DIAG_SQLITE_ERROR_HANDLER_CALLED (FormatError recorder)
  end.

(** Which of the seven outcomes a classification is. *)
Definition kind (c : Classification) : nat :=
  match c with
  | listed ok => 0
  | listed (corrupted _) => 1
  | listed notFound => 2
  | listed cannotOpen => 3
  | listed locked => 4
  | pragmaFailed _ => 5
  | errorHandlerCalled _ => 6
  end%nat.

(** The state of the recorder after the callback invocations [es]. *)
Definition recorder_after (es : list SqliteError) : ErrorRecorder :=
  fold_left RecordSqliteError es ErrorRecorder_new.

End SqliteDiagnostics.

(* ================================================================== *)
(** ** Sample clients and environments                                 *)
(* ================================================================== *)

Module Samples.

(** A client whose callback [S n] asks again, once, with callback [n], and
    whose callback [0] asks for nothing; its state counts the invocations. *)
Definition countdown (cb : nat) (success : bool) (w : nat) : nat * list nat :=
  (S w, match cb with O => [] | S n => [n] end).

(** A client whose every callback asks again with itself. *)
Definition again (cb : nat) (success : bool) (w : unit) : unit * list nat :=
  (w, [cb]).

(** A client whose callbacks never call [StartQueryInfo]. *)
Definition quiet (cb : nat) (success : bool) (w : unit) : unit * list nat :=
  (w, []).

(** A provider just built; the same after [StartQueryInfo(2)]; the same when
    callback 0 was requested too, the query has run with success and the
    reply is entered; and the same when the reply has returned. *)
Definition fresh : SystemInfoProvider.Provider nat nat :=
  SystemInfoProvider.SystemInfoProvider nat 0.

Definition requested : SystemInfoProvider.Provider nat nat :=
  SystemInfoProvider.StartQueryInfo 2 fresh.

Definition at_reply : SystemInfoProvider.Provider nat nat :=
  SystemInfoProvider.mkProvider [2; 0] true 0 [] 0
    [SystemInfoProvider.EvStartQueryInfo 2; SystemInfoProvider.EvPrepare;
     SystemInfoProvider.EvPostTask; SystemInfoProvider.EvStartQueryInfo 0;
     SystemInfoProvider.EvQueryInfo true].

Definition replied : SystemInfoProvider.Provider nat nat :=
  SystemInfoProvider.mkProvider [] false 0 [] 4
    [SystemInfoProvider.EvStartQueryInfo 2; SystemInfoProvider.EvPrepare;
     SystemInfoProvider.EvPostTask; SystemInfoProvider.EvStartQueryInfo 0;
     SystemInfoProvider.EvQueryInfo true;
     SystemInfoProvider.EvRun 2 true; SystemInfoProvider.EvStartQueryInfo 1;
     SystemInfoProvider.EvRun 0 true;
     SystemInfoProvider.EvRun 1 true; SystemInfoProvider.EvStartQueryInfo 0;
     SystemInfoProvider.EvRun 0 true].

(** A file system with the single file "/p/Web Data", and SQLite libraries
    that read it as a sound database, as one whose integrity pragma cannot be
    compiled (SQLITE_ERROR), and as one with two damaged pages. *)
Definition only_web_data (path : string) : bool :=
  (path =? "/p/Web Data")%string.

Definition absolute (path : string) : bool :=
  match path with
  | String "/"%char _ => true
  | _ => false
  end.

Definition join (dir file : string) : string :=
  (dir ++ "/" ++ file)%string.

Definition sound_database (path : string) : SqliteDiagnostics.Database :=
  SqliteDiagnostics.mkDatabase true [] true [] 0%Z ["ok"%string] [].

Definition pragma_fails (path : string) : SqliteDiagnostics.Database :=
  SqliteDiagnostics.mkDatabase true [] false [] 1%Z [] [].

Definition damaged_database (path : string) : SqliteDiagnostics.Database :=
  SqliteDiagnostics.mkDatabase true [] true [] 0%Z
    ["*** in database main ***"%string; "ok"%string;
     "Page 7 is never used"%string] [].

Definition web_data_test : SqliteDiagnostics.SqliteIntegrityTest :=
  SqliteDiagnostics.mkSqliteIntegrityTest true "Web Data"%string.

End Samples.

Module Clients.

(** A client that keeps a ledger of what its callbacks were handed, in the
    order in which they were run; its callback [S n] asks again, once, with
    callback [n]. *)
Definition ledger (cb : nat) (success : bool) (w : list (nat * bool))
  : list (nat * bool) * list nat :=
  ((w ++ [(cb, success)])%list,
   match cb with O => [] | S n => [n] end).

(** A client that asks again with the same callback when the query has
    failed, as long as it has retries left; its state is the number of
    retries left. *)
Definition retry (cb : nat) (success : bool) (left : nat) : nat * list nat :=
  if success then (left, [])
  else match left with
       | O => (O, [])
       | S n => (n, [cb])
       end.

(** The ledger client with a provider just built; when callbacks 2 and 0
    were requested, the query has run with the result [b] and the reply is
    entered; and when that reply has returned. *)
Definition ledger_fresh : SystemInfoProvider.Provider nat (list (nat * bool)) :=
  SystemInfoProvider.SystemInfoProvider nat [].

Definition ledger_at_reply (b : bool)
  : SystemInfoProvider.Provider nat (list (nat * bool)) :=
  SystemInfoProvider.mkProvider [2; 0]%nat true 0 [] []
    [SystemInfoProvider.EvStartQueryInfo 2%nat; SystemInfoProvider.EvPrepare;
     SystemInfoProvider.EvPostTask; SystemInfoProvider.EvStartQueryInfo 0%nat;
     SystemInfoProvider.EvQueryInfo b].

Definition ledger_replied (b : bool)
  : SystemInfoProvider.Provider nat (list (nat * bool)) :=
  SystemInfoProvider.mkProvider [] false 0 []
    [(2, b); (0, b); (1, b); (0, b)]%nat
    [SystemInfoProvider.EvStartQueryInfo 2%nat; SystemInfoProvider.EvPrepare;
     SystemInfoProvider.EvPostTask; SystemInfoProvider.EvStartQueryInfo 0%nat;
     SystemInfoProvider.EvQueryInfo b;
     SystemInfoProvider.EvRun 2%nat b;
     SystemInfoProvider.EvStartQueryInfo 1%nat;
     SystemInfoProvider.EvRun 0%nat b;
     SystemInfoProvider.EvRun 1%nat b;
     SystemInfoProvider.EvStartQueryInfo 0%nat;
     SystemInfoProvider.EvRun 0%nat b].

(** The ledger client after a whole cycle: callback 2 requested first,
    callback 0 while the task waited, callback 1 when the query had run. *)
Definition ledger_cycled
  : SystemInfoProvider.Provider nat (list (nat * bool)) :=
  SystemInfoProvider.mkProvider [] false 0 []
    [(2, true); (0, true); (1, true); (1, true); (0, true); (0, true)]%nat
    [SystemInfoProvider.EvStartQueryInfo 2%nat; SystemInfoProvider.EvPrepare;
     SystemInfoProvider.EvPostTask; SystemInfoProvider.EvStartQueryInfo 0%nat;
     SystemInfoProvider.EvQueryInfo true;
     SystemInfoProvider.EvStartQueryInfo 1%nat;
     SystemInfoProvider.EvRun 2%nat true;
     SystemInfoProvider.EvStartQueryInfo 1%nat;
     SystemInfoProvider.EvRun 0%nat true;
     SystemInfoProvider.EvRun 1%nat true;
     SystemInfoProvider.EvStartQueryInfo 0%nat;
     SystemInfoProvider.EvRun 1%nat true;
     SystemInfoProvider.EvStartQueryInfo 0%nat;
     SystemInfoProvider.EvRun 0%nat true;
     SystemInfoProvider.EvRun 0%nat true].

(** The retry client with two retries left and callback 7 queued. *)
Definition retry_queued : SystemInfoProvider.Provider nat nat :=
  SystemInfoProvider.mkProvider [7]%nat true 0 [] 2%nat [].

End Clients.


(* ================================================================== *)
(** ** Facts about the provider                                        *)
(* ================================================================== *)

Import SystemInfoProvider.

Section ProviderFacts.

Context {Callback World : Type}.
Variable Run : Callback -> bool -> World -> World * list Callback.

Local Abbreviation Provider := (Provider Callback World).
Local Abbreviation Event := (Event Callback).

(** *** Traces *)

Lemma runs_app (l1 l2 : list Event) : runs (l1 ++ l2) = runs l1 ++ runs l2.
Proof. apply flat_map_app. Qed.

Lemma requests_app (l1 l2 : list Event) :
  requests (l1 ++ l2) = requests l1 ++ requests l2.
Proof. apply flat_map_app. Qed.

Lemma queries_app (l1 l2 : list Event) :
  queries (l1 ++ l2) = queries l1 ++ queries l2.
Proof. apply flat_map_app. Qed.

Lemma posts_app (l1 l2 : list Event) : posts (l1 ++ l2) = posts l1 + posts l2.
Proof. unfold posts. now rewrite flat_map_app, length_app. Qed.

Lemma prepares_app (l1 l2 : list Event) :
  prepares (l1 ++ l2) = prepares l1 + prepares l2.
Proof. unfold prepares. now rewrite flat_map_app, length_app. Qed.

Lemma runs_requests (cbs : list Callback) :
  runs (map (@EvStartQueryInfo Callback) cbs) = [].
Proof. induction cbs; simpl; auto. Qed.

Lemma requests_requests (cbs : list Callback) :
  requests (map (@EvStartQueryInfo Callback) cbs) = cbs.
Proof. induction cbs; simpl; auto. now f_equal. Qed.

Lemma posts_requests (cbs : list Callback) :
  posts (map (@EvStartQueryInfo Callback) cbs) = 0.
Proof. induction cbs; simpl; auto. Qed.

Lemma prepares_requests (cbs : list Callback) :
  prepares (map (@EvStartQueryInfo Callback) cbs) = 0.
Proof. induction cbs; simpl; auto. Qed.

Lemma queries_requests (cbs : list Callback) :
  queries (map (@EvStartQueryInfo Callback) cbs) = [].
Proof. induction cbs; simpl; auto. Qed.

Lemma undispatched_app (l1 l2 : list Event) :
  undispatched l1 -> undispatched l2 -> undispatched (l1 ++ l2).
Proof.
  intros (A1 & B1 & C1) (A2 & B2 & C2). unfold undispatched.
  rewrite posts_app, prepares_app, queries_app, A1, A2, B1, B2, C1, C2.
  auto.
Qed.

Lemma undispatched_requests (cbs : list Callback) :
  undispatched (map (@EvStartQueryInfo Callback) cbs).
Proof.
  unfold undispatched.
  now rewrite posts_requests, prepares_requests, queries_requests.
Qed.

(** *** StartQueryInfo *)

Lemma StartQueryInfo_waiting (cb : Callback) (p : Provider) :
  is_waiting_for_completion_ p = true ->
  StartQueryInfo cb p =
  mkProvider (callbacks_ p ++ [cb]) true (worker_pool_ p) (ui_replies p)
             (world p) (trace p ++ [EvStartQueryInfo cb]).
Proof.
  intros H. unfold StartQueryInfo. destruct p; simpl in *. now rewrite H.
Qed.

Lemma StartQueryInfo_idle (cb : Callback) (p : Provider) :
  is_waiting_for_completion_ p = false ->
  StartQueryInfo cb p =
  mkProvider (callbacks_ p ++ [cb]) true (S (worker_pool_ p)) (ui_replies p)
             (world p)
             (trace p ++ [EvStartQueryInfo cb; EvPrepare; EvPostTask]).
Proof.
  intros H. unfold StartQueryInfo. destruct p; simpl in *. rewrite H.
  unfold InitializeProvider, StartQueryInfoPostInitialization,
    PostTaskAndReplyWithResult, PrepareQueryOnUIThread, set_pool, record,
    set_waiting; simpl.
  now rewrite <- !app_assoc.
Qed.

Lemma StartQueryInfo_callbacks (cb : Callback) (p : Provider) :
  callbacks_ (StartQueryInfo cb p) = callbacks_ p ++ [cb].
Proof.
  destruct (is_waiting_for_completion_ p) eqn:E.
  - now rewrite StartQueryInfo_waiting.
  - now rewrite StartQueryInfo_idle.
Qed.

Lemma StartQueryInfo_is_waiting (cb : Callback) (p : Provider) :
  is_waiting_for_completion_ (StartQueryInfo cb p) = true.
Proof.
  destruct (is_waiting_for_completion_ p) eqn:E.
  - now rewrite StartQueryInfo_waiting.
  - now rewrite StartQueryInfo_idle.
Qed.

Lemma StartQueryInfos_waiting (cbs : list Callback) (p : Provider) :
  is_waiting_for_completion_ p = true ->
  StartQueryInfos cbs p =
  mkProvider (callbacks_ p ++ cbs) true (worker_pool_ p) (ui_replies p)
             (world p) (trace p ++ map (@EvStartQueryInfo Callback) cbs).
Proof.
  revert p. induction cbs as [|cb cbs IH]; intros p H.
  - simpl. rewrite !app_nil_r. destruct p; simpl in *. now subst.
  - unfold StartQueryInfos in *. simpl.
    rewrite IH by apply StartQueryInfo_is_waiting.
    rewrite StartQueryInfo_waiting by assumption. simpl.
    now rewrite <- !app_assoc.
Qed.

Lemma StartQueryInfos_callbacks (cbs : list Callback) (p : Provider) :
  callbacks_ (StartQueryInfos cbs p) = callbacks_ p ++ cbs.
Proof.
  revert p. induction cbs as [|cb cbs IH]; intros p.
  - simpl. now rewrite app_nil_r.
  - unfold StartQueryInfos in *. simpl.
    rewrite IH, StartQueryInfo_callbacks. now rewrite <- app_assoc.
Qed.

Lemma StartQueryInfos_app (l1 l2 : list Callback) (p : Provider) :
  StartQueryInfos (l1 ++ l2) p = StartQueryInfos l2 (StartQueryInfos l1 p).
Proof. apply fold_left_app. Qed.

(** *** One callback, one iteration *)

Lemma run_callback_is_upto (cb : Callback) (b : bool) (p : Provider) :
  run_callback Run cb b p =
  run_callback_upto Run (length (snd (Run cb b (world p)))) cb b p.
Proof.
  unfold run_callback, run_callback_upto.
  destruct (Run cb b (world p)) as [w reqs]. simpl. now rewrite firstn_all.
Qed.

Lemma run_callback_upto_waiting
    (k : nat) (cb : Callback) (b : bool) (p : Provider) :
  is_waiting_for_completion_ p = true ->
  run_callback_upto Run k cb b p =
  mkProvider (callbacks_ p ++ firstn k (snd (Run cb b (world p)))) true
             (worker_pool_ p) (ui_replies p) (fst (Run cb b (world p)))
             (trace p ++ EvRun cb b ::
                map (@EvStartQueryInfo Callback)
                    (firstn k (snd (Run cb b (world p))))).
Proof.
  intros H. unfold run_callback_upto.
  destruct (Run cb b (world p)) as [w reqs]. simpl.
  rewrite StartQueryInfos_waiting by assumption. simpl.
  now rewrite <- app_assoc.
Qed.

Lemma run_callback_waiting (cb : Callback) (b : bool) (p : Provider) :
  is_waiting_for_completion_ p = true ->
  run_callback Run cb b p =
  mkProvider (callbacks_ p ++ snd (Run cb b (world p))) true
             (worker_pool_ p) (ui_replies p) (fst (Run cb b (world p)))
             (trace p ++ EvRun cb b ::
                map (@EvStartQueryInfo Callback) (snd (Run cb b (world p)))).
Proof.
  intros H. rewrite run_callback_is_upto, run_callback_upto_waiting by auto.
  now rewrite firstn_all.
Qed.

Lemma run_callback_callbacks (cb : Callback) (b : bool) (p : Provider) :
  callbacks_ (run_callback Run cb b p) =
  callbacks_ p ++ snd (Run cb b (world p)).
Proof.
  unfold run_callback. destruct (Run cb b (world p)) as [w reqs].
  now rewrite StartQueryInfos_callbacks.
Qed.

Lemma loop_body_waiting
    (cb : Callback) (q : list Callback) (b : bool) (p : Provider) :
  is_waiting_for_completion_ p = true ->
  callbacks_ p = cb :: q ->
  loop_body Run cb b p =
  mkProvider (q ++ snd (Run cb b (world p))) true
             (worker_pool_ p) (ui_replies p) (fst (Run cb b (world p)))
             (trace p ++ EvRun cb b ::
                map (@EvStartQueryInfo Callback) (snd (Run cb b (world p)))).
Proof.
  intros H Hq. unfold loop_body. rewrite run_callback_waiting by assumption.
  unfold pop, set_callbacks. simpl. now rewrite Hq.
Qed.

Lemma loop_body_callbacks
    (cb : Callback) (q : list Callback) (b : bool) (p : Provider) :
  callbacks_ p = cb :: q ->
  callbacks_ (loop_body Run cb b p) = q ++ snd (Run cb b (world p)).
Proof.
  intros Hq. unfold loop_body, pop. simpl.
  now rewrite run_callback_callbacks, Hq.
Qed.

End ProviderFacts.

(* ================================================================== *)
(** ** The drain loop                                                  *)
(* ================================================================== *)

Section DrainFacts.

Context {Callback World : Type}.
Variable Run : Callback -> bool -> World -> World * list Callback.

Local Abbreviation Provider := (Provider Callback World).
Local Abbreviation Event := (Event Callback).

Lemma drain_empty (fuel : nat) (b : bool) (p : Provider) :
  callbacks_ p = [] -> drain Run fuel b p = Some p.
Proof. intros H. destruct fuel; simpl; now rewrite H. Qed.

Lemma drain_step (fuel : nat) (b : bool) (p : Provider)
    (cb : Callback) (q : list Callback) :
  callbacks_ p = cb :: q ->
  drain Run (S fuel) b p = drain Run fuel b (loop_body Run cb b p).
Proof. intros H. simpl. now rewrite H. Qed.

(** More fuel does not change a result. *)
Lemma drain_more_fuel (fuel fuel' : nat) (b : bool) (p p' : Provider) :
  drain Run fuel b p = Some p' -> fuel <= fuel' ->
  drain Run fuel' b p = Some p'.
Proof.
  revert fuel' p. induction fuel as [|fuel IH]; intros fuel' p H Hle.
  - simpl in H. destruct (callbacks_ p) eqn:E; [|discriminate].
    rewrite drain_empty; auto.
  - destruct (callbacks_ p) as [|cb q] eqn:E.
    + rewrite drain_empty in H by assumption. rewrite drain_empty; auto.
    + destruct fuel' as [|fuel']; [lia|].
      rewrite (drain_step fuel _ _ E) in H. rewrite (drain_step fuel' _ _ E).
      apply IH; [assumption | lia].
Qed.

(** What a drain that starts with the flag set does: it runs the queued
    callbacks and those requested meanwhile ([reqs]), in this order, each with
    [b]; it dispatches nothing; it leaves the queue empty. *)
Lemma drain_spec (fuel : nat) (b : bool) (p p' : Provider) :
  is_waiting_for_completion_ p = true ->
  drain Run fuel b p = Some p' ->
  exists l reqs,
    p' = mkProvider [] true (worker_pool_ p) (ui_replies p) (world p')
                    (trace p ++ l) /\
    runs l = map (fun cb => (cb, b)) (callbacks_ p ++ reqs) /\
    requests l = reqs /\
    undispatched l.
Proof.
  revert p. induction fuel as [|fuel IH]; intros p Hw H.
  - simpl in H. destruct (callbacks_ p) eqn:E; [|discriminate].
    injection H as <-. exists [], []. rewrite app_nil_r.
    repeat split; auto. destruct p; simpl in *; now subst.
  - destruct (callbacks_ p) as [|cb q] eqn:E.
    + rewrite drain_empty in H by assumption.
      injection H as <-. exists [], []. rewrite app_nil_r.
      repeat split; auto. destruct p; simpl in *; now subst.
    + rewrite (drain_step _ _ _ E) in H.
      rewrite (loop_body_waiting Run b p Hw E) in H.
      apply IH in H; [|reflexivity].
      destruct H as (l & reqs & Hp' & Hruns & Hreqs & Hund). simpl in *.
      exists ((EvRun cb b ::
                 map (@EvStartQueryInfo Callback) (snd (Run cb b (world p))))
              ++ l), (snd (Run cb b (world p)) ++ reqs).
      split; [|split; [|split]].
      * rewrite Hp'. now rewrite <- app_assoc.
      * rewrite runs_app, Hruns. simpl. rewrite runs_requests. simpl.
        now rewrite <- app_assoc.
      * rewrite requests_app, Hreqs. simpl. now rewrite requests_requests.
      * apply undispatched_app; [|assumption].
        apply (undispatched_requests (snd (Run cb b (world p)))).
Qed.

(** The same for [OnQueryCompleted], which then clears the flag. *)
Lemma OnQueryCompleted_spec (fuel : nat) (b : bool) (p p' : Provider) :
  is_waiting_for_completion_ p = true ->
  OnQueryCompleted Run fuel b p = Some p' ->
  exists l reqs,
    p' = mkProvider [] false (worker_pool_ p) (ui_replies p) (world p')
                    (trace p ++ l) /\
    runs l = map (fun cb => (cb, b)) (callbacks_ p ++ reqs) /\
    requests l = reqs /\
    undispatched l.
Proof.
  intros Hw H. unfold OnQueryCompleted in H.
  destruct (drain Run fuel b p) as [p1|] eqn:E; [|discriminate].
  injection H as <-.
  destruct (drain_spec _ _ _ Hw E) as (l & reqs & Hp1 & Hruns & Hreqs & Hund).
  exists l, reqs. repeat split; try assumption; try apply Hund.
  rewrite Hp1. reflexivity.
Qed.

Lemma OnQueryCompleted_more_fuel
    (fuel fuel' : nat) (b : bool) (p p' : Provider) :
  OnQueryCompleted Run fuel b p = Some p' -> fuel <= fuel' ->
  OnQueryCompleted Run fuel' b p = Some p'.
Proof.
  unfold OnQueryCompleted. intros H Hle.
  destruct (drain Run fuel b p) as [p1|] eqn:E; [|discriminate].
  now rewrite (@drain_more_fuel _ _ _ _ _ E Hle).
Qed.

(** *** Termination for clients whose re-requests are well founded *)

Section Ranked.

Variable rank : Callback -> nat.
Hypothesis ranked : well_founded_client Run rank.

(** Running the callbacks of [q1], which were queued in front of [q2], leaves
    a queue made of [q2] and of what the callbacks of [q1] requested. *)
Lemma drain_generation (b : bool) (r : nat) (q1 : list Callback) :
  forall (p : Provider) (q2 : list Callback),
    callbacks_ p = q1 ++ q2 ->
    (forall c, In c q1 -> rank c <= r) ->
    (forall c, In c q2 -> rank c < r) ->
    exists p1,
      (forall c, In c (callbacks_ p1) -> rank c < r) /\
      (forall fuel, drain Run (length q1 + fuel) b p = drain Run fuel b p1).
Proof.
  induction q1 as [|cb q1 IH]; intros p q2 Hq H1 H2.
  - exists p. split; [|reflexivity]. intros c Hc. apply H2.
    now rewrite Hq in Hc.
  - simpl in Hq.
    destruct (IH (loop_body Run cb b p) (q2 ++ snd (Run cb b (world p))))
      as (p1 & Hp1 & Hfuel).
    + rewrite (loop_body_callbacks Run b p Hq). now rewrite <- app_assoc.
    + intros c Hc. apply H1. now right.
    + intros c Hc. apply in_app_or in Hc. destruct Hc as [Hc|Hc].
      * now apply H2.
      * apply ranked in Hc. specialize (H1 cb (or_introl eq_refl)). lia.
    + exists p1. split; [assumption|]. intros fuel.
      change (length (cb :: q1) + fuel) with (S (length q1 + fuel)).
      rewrite (drain_step _ _ _ Hq). apply Hfuel.
Qed.

Lemma drain_terminates_below (b : bool) (r : nat) :
  forall p : Provider,
    (forall c, In c (callbacks_ p) -> rank c < r) ->
    exists fuel p', drain Run fuel b p = Some p'.
Proof.
  induction r as [|r IH]; intros p Hr.
  - exists 0, p. apply drain_empty.
    destruct (callbacks_ p) as [|c q]; [reflexivity|].
    specialize (Hr c (or_introl eq_refl)). lia.
  - destruct (@drain_generation b r (callbacks_ p) p [])
      as (p1 & Hp1 & Hfuel).
    + now rewrite app_nil_r.
    + intros c Hc. apply Hr in Hc. lia.
    + intros c [].
    + destruct (IH p1 Hp1) as (fuel & p' & Hd).
      exists (length (callbacks_ p) + fuel), p'. now rewrite Hfuel.
Qed.

Lemma rank_below_max (q : list Callback) (c : Callback) :
  In c q -> rank c < S (list_max (map rank q)).
Proof.
  intros Hc.
  assert (H : list_max (map rank q) <= list_max (map rank q)) by lia.
  rewrite list_max_le in H. rewrite Forall_forall in H.
  specialize (H (rank c) (in_map rank _ _ Hc)). lia.
Qed.

(** The drain terminates, whatever the queue it starts with. *)
Lemma drain_terminates (b : bool) (p : Provider) :
  exists fuel p', drain Run fuel b p = Some p'.
Proof.
  apply (@drain_terminates_below b (S (list_max (map rank (callbacks_ p))))).
  intros c Hc. now apply rank_below_max.
Qed.

Lemma OnQueryCompleted_terminates (b : bool) (p : Provider) :
  exists fuel p', OnQueryCompleted Run fuel b p = Some p'.
Proof.
  destruct (drain_terminates b p) as (fuel & p' & H).
  exists fuel, (set_waiting false p'). unfold OnQueryCompleted. now rewrite H.
Qed.

End Ranked.

End DrainFacts.

(* ================================================================== *)
(** ** Executions                                                      *)
(* ================================================================== *)

Section ExecutionFacts.

Context {Callback World : Type}.
Variable Run : Callback -> bool -> World -> World * list Callback.

Local Abbreviation Provider := (Provider Callback World).
Local Abbreviation Action := (Action Callback).

Lemma run_app (fuel : nat) (a1 a2 : list Action) (p : Provider) :
  run Run fuel (a1 ++ a2) p =
  match run Run fuel a1 p with
  | Some p1 => run Run fuel a2 p1
  | None => None
  end.
Proof.
  revert p. induction a1 as [|a a1 IH]; intros p; simpl; [reflexivity|].
  destruct (exec Run fuel a p); auto.
Qed.

Lemma run_calls (fuel : nat) (cbs : list Callback) (p : Provider) :
  run Run fuel (map (@CallStartQueryInfo Callback) cbs) p =
  Some (StartQueryInfos cbs p).
Proof.
  revert p. induction cbs as [|cb cbs IH]; intros p; simpl; [reflexivity|].
  apply IH.
Qed.

Lemma exec_more_fuel (fuel fuel' : nat) (a : Action) (p p' : Provider) :
  exec Run fuel a p = Some p' -> fuel <= fuel' ->
  exec Run fuel' a p = Some p'.
Proof.
  intros H Hle. destruct a; simpl in *; try assumption.
  destruct (ui_replies p); [discriminate|].
  eapply OnQueryCompleted_more_fuel; eassumption.
Qed.

Lemma run_more_fuel (fuel fuel' : nat) (acts : list Action) :
  forall p p' : Provider,
    run Run fuel acts p = Some p' -> fuel <= fuel' ->
    run Run fuel' acts p = Some p'.
Proof.
  induction acts as [|a acts IH]; intros p p' H Hle; simpl in *; [assumption|].
  destruct (exec Run fuel a p) as [p1|] eqn:E; [|discriminate].
  rewrite (@exec_more_fuel _ _ _ _ _ E Hle). eapply IH; eassumption.
Qed.

(** *** The invariant *)

Lemma consistent_new (w : World) : consistent (SystemInfoProvider Callback w).
Proof.
  constructor; simpl; try discriminate; auto.
  intros _. repeat split.
Qed.

Lemma consistent_StartQueryInfo (cb : Callback) (p : Provider) :
  consistent p -> consistent (StartQueryInfo cb p).
Proof.
  intros [Hidle Hq Hone Hfifo].
  destruct (is_waiting_for_completion_ p) eqn:E.
  - rewrite StartQueryInfo_waiting by assumption.
    constructor; simpl; try discriminate.
    + intros _. now destruct (callbacks_ p).
    + intros _. now apply Hone.
    + rewrite runs_app, requests_app, map_app. simpl.
      rewrite app_nil_r, app_assoc. now rewrite Hfifo.
  - rewrite StartQueryInfo_idle by assumption.
    destruct (Hidle eq_refl) as (_ & Hc & Hp & Hr).
    constructor; simpl; try discriminate.
    + intros _. now destruct (callbacks_ p).
    + intros _. rewrite Hp, Hr. simpl. lia.
    + rewrite runs_app, requests_app, map_app. simpl.
      rewrite app_nil_r, app_assoc. now rewrite Hfifo.
Qed.

Lemma consistent_StartQueryInfos (cbs : list Callback) (p : Provider) :
  consistent p -> consistent (StartQueryInfos cbs p).
Proof.
  revert p. induction cbs as [|cb cbs IH]; intros p H; [assumption|].
  apply IH. now apply consistent_StartQueryInfo.
Qed.

Lemma consistent_exec (fuel : nat) (a : Action) (p p' : Provider) :
  consistent p -> exec Run fuel a p = Some p' -> consistent p'.
Proof.
  intros Hc H. destruct a as [cb|b| |]; simpl in H.
  - injection H as <-. now apply consistent_StartQueryInfo.
  - destruct Hc as [Hidle Hq Hone Hfifo].
    destruct (worker_pool_ p) as [|n] eqn:En; [discriminate|].
    injection H as <-.
    destruct (is_waiting_for_completion_ p) eqn:E.
    + constructor; simpl; rewrite ?E; try discriminate; auto.
      * intros _. specialize (Hone eq_refl). rewrite length_app. simpl. lia.
      * rewrite runs_app, requests_app, map_app. simpl.
        now rewrite !app_nil_r.
    + destruct (Hidle eq_refl) as (_ & _ & Hp & _). congruence.
  - destruct Hc as [Hidle Hq Hone Hfifo].
    destruct (worker_pool_ p) as [|n] eqn:En; [discriminate|].
    injection H as <-.
    destruct (is_waiting_for_completion_ p) eqn:E.
    + constructor; simpl; rewrite ?E; try discriminate; auto.
      intros _. specialize (Hone eq_refl). lia.
    + destruct (Hidle eq_refl) as (_ & _ & Hp & _). congruence.
  - destruct Hc as [Hidle Hq Hone Hfifo].
    destruct (ui_replies p) as [|b rest] eqn:Er; [discriminate|].
    destruct (is_waiting_for_completion_ p) eqn:E.
    + specialize (Hone eq_refl). simpl in Hone.
      apply OnQueryCompleted_spec in H; [|exact E].
      destruct H as (l & reqs & -> & Hruns & Hreqs & Hund). simpl.
      constructor; simpl; try discriminate.
      * intros _. repeat split; simpl; try lia.
        destruct rest; [reflexivity | simpl in Hone; lia].
      * rewrite runs_app, requests_app, map_app, Hruns, Hreqs, map_map.
        simpl. rewrite map_id, app_nil_r, <- Hfifo.
        now rewrite app_assoc.
    + destruct (Hidle eq_refl) as (_ & _ & _ & Hr). congruence.
Qed.

Lemma consistent_run (fuel : nat) (acts : list Action) :
  forall p p' : Provider,
    consistent p -> run Run fuel acts p = Some p' -> consistent p'.
Proof.
  induction acts as [|a acts IH]; intros p p' Hc H; simpl in H.
  - now injection H as <-.
  - destruct (exec Run fuel a p) as [p1|] eqn:E; [|discriminate].
    eapply IH; [|eassumption]. eapply consistent_exec; eassumption.
Qed.

Lemma reachable_consistent (p : Provider) : reachable Run p -> consistent p.
Proof.
  intros (w & fuel & acts & H).
  eapply consistent_run; [apply consistent_new | eassumption].
Qed.

End ExecutionFacts.

(* ================================================================== *)
(** ** One cycle: request, query, reply                                *)
(* ================================================================== *)

Section Cycle.

Context {Callback World : Type}.
Variable Run : Callback -> bool -> World -> World * list Callback.

Local Abbreviation Provider := (Provider Callback World).
Local Abbreviation Action := (Action Callback).

Lemma cycle_run (fuel : nat) (p : Provider) (first : Callback)
    (before : list Callback) (success : bool) (after : list Callback) :
  Idle p ->
  run Run fuel (cycle first before success after) p =
  OnQueryCompleted Run fuel success
    (mkProvider (first :: before ++ after) true 0 [] (world p)
                (trace p ++ cycle_prefix first before success after)).
Proof.
  intros (Hw & Hq & Hp & Hr). unfold cycle.
  change (run Run fuel (?a :: ?l) p) with
    (match exec Run fuel a p with
     | Some p' => run Run fuel l p' | None => None end).
  simpl exec. rewrite (StartQueryInfo_idle _ _ Hw), Hq, Hp, Hr. simpl app.
  rewrite run_app, run_calls, StartQueryInfos_waiting by reflexivity.
  simpl. rewrite run_app, run_calls, StartQueryInfos_waiting by reflexivity.
  simpl. unfold set_replies. simpl.
  destruct (OnQueryCompleted Run fuel success _) eqn:E;
    unfold cycle_prefix; simpl; rewrite <- ?app_assoc in *; simpl in *;
    rewrite <- ?app_assoc in *; simpl in *; now rewrite E.
Qed.

Lemma posts_cycle_prefix (first : Callback) (before : list Callback)
    (success : bool) (after : list Callback) :
  posts (cycle_prefix first before success after) = 1 /\
  prepares (cycle_prefix first before success after) = 1 /\
  queries (cycle_prefix first before success after) = [success] /\
  runs (cycle_prefix first before success after) = [] /\
  requests (cycle_prefix first before success after) =
  first :: before ++ after.
Proof.
  unfold cycle_prefix.
  rewrite !posts_app, !prepares_app, !queries_app, !runs_app, !requests_app.
  rewrite !posts_requests, !prepares_requests, !queries_requests,
    !runs_requests, !requests_requests.
  simpl. auto.
Qed.

(** What a completed cycle that starts in an idle state has done. *)
Lemma cycle_spec (fuel : nat) (p p' : Provider) (first : Callback)
    (before : list Callback) (success : bool) (after : list Callback) :
  Idle p ->
  run Run fuel (cycle first before success after) p = Some p' ->
  exists l reentrant,
    trace p' = trace p ++ l /\
    posts l = 1 /\ prepares l = 1 /\ queries l = [success] /\
    runs l = map (fun cb => (cb, success))
                 (first :: before ++ after ++ reentrant) /\
    requests l = first :: before ++ after ++ reentrant /\
    Idle p'.
Proof.
  intros Hidle H. rewrite cycle_run in H by assumption.
  apply OnQueryCompleted_spec in H; [|reflexivity].
  destruct H as (l & reqs & -> & Hruns & Hreqs & Hp & Hpr & Hq). simpl in *.
  destruct (posts_cycle_prefix first before success after)
    as (A & B & C & D & E).
  exists (cycle_prefix first before success after ++ l), reqs.
  split; [now rewrite app_assoc|].
  rewrite posts_app, prepares_app, queries_app, runs_app, requests_app.
  rewrite A, B, C, D, E, Hp, Hpr, Hq, Hruns, Hreqs.
  repeat split; simpl; rewrite <- ?app_assoc; auto.
Qed.

Lemma cycle_terminates (rank : Callback -> nat) (p : Provider)
    (first : Callback) (before : list Callback) (success : bool)
    (after : list Callback) :
  well_founded_client Run rank -> Idle p ->
  exists fuel p', run Run fuel (cycle first before success after) p = Some p'.
Proof.
  intros Hrank Hidle.
  destruct (OnQueryCompleted_terminates Hrank success
              (mkProvider (first :: before ++ after) true 0 [] (world p)
                 (trace p ++ cycle_prefix first before success after)))
    as (fuel & p' & H).
  exists fuel, p'. now rewrite cycle_run.
Qed.

End Cycle.

(* ================================================================== *)
(** ** What the clients see                                            *)
(* ================================================================== *)

Section Service.

Context {Callback World : Type}.
Variable Run : Callback -> bool -> World -> World * list Callback.

Local Abbreviation Provider := (Provider Callback World).
Local Abbreviation Action := (Action Callback).

(** Specification of a drain cycle, in the words of the specification and
    on the clients alone, for comparison with [drain]: when a query has
    completed with [success], the callback in front of those
    waiting is run with [success] in the state the clients are in, the
    callbacks it requests join the back of those waiting, and so on until
    none waits.  [Served success w waiting w' served]: from the state [w],
    with [waiting] waiting, the callbacks [served] are run, in this order,
    each with [success], and the clients end in [w']. *)
Inductive Served (success : bool)
  : World -> list Callback -> World -> list Callback -> Prop :=
| Served_none (w : World) : Served success w [] w []
| Served_front (w : World) (cb : Callback) (waiting : list Callback)
    (w1 : World) (reqs : list Callback) (w' : World)
    (served : list Callback) :
    Run cb success w = (w1, reqs) ->
    Served success w1 (waiting ++ reqs) w' served ->
    Served success w (cb :: waiting) w' (cb :: served).

(** Each of the callbacks waiting, run in turn with [success] from the
    state [w], calls [StartQueryInfo] not at all. *)
Fixpoint quiet_from (success : bool) (w : World) (waiting : list Callback)
  : Prop :=
  match waiting with
  | [] => True
  | cb :: rest =>
      snd (Run cb success w) = [] /\
      quiet_from success (fst (Run cb success w)) rest
  end.




(** *** The drain serves *)

Lemma StartQueryInfo_world (cb : Callback) (p : Provider) :
  world (StartQueryInfo cb p) = world p.
Proof.
  destruct (is_waiting_for_completion_ p) eqn:E.
  - now rewrite StartQueryInfo_waiting.
  - now rewrite StartQueryInfo_idle.
Qed.

Lemma StartQueryInfos_world (cbs : list Callback) :
  forall p : Provider, world (StartQueryInfos cbs p) = world p.
Proof.
  induction cbs as [|cb cbs IH]; intros p; [reflexivity|].
  unfold StartQueryInfos in *. simpl. now rewrite IH, StartQueryInfo_world.
Qed.

Lemma loop_body_world (cb : Callback) (b : bool) (p : Provider) :
  world (loop_body Run cb b p) = fst (Run cb b (world p)).
Proof.
  unfold loop_body, run_callback, pop. simpl.
  destruct (Run cb b (world p)) as [w reqs].
  now rewrite StartQueryInfos_world.
Qed.


(** A drain that returns has served. *)
Lemma drain_Served (b : bool) (fuel : nat) :
  forall p p' : Provider,
    drain Run fuel b p = Some p' ->
    exists served,
      Served b (world p) (callbacks_ p) (world p') served /\
      length served <= fuel.
Proof.
  induction fuel as [|fuel IH]; intros p p' H; simpl in H;
    destruct (callbacks_ p) as [|cb q] eqn:E; try discriminate.
  - injection H as <-. exists []. split; [constructor | reflexivity].
  - injection H as <-. exists []. split; [constructor | simpl; lia].
  - destruct (IH _ _ H) as (served & HS & Hl).
    rewrite loop_body_world, (loop_body_callbacks Run b p E) in HS.
    exists (cb :: served). split; [|simpl; lia].
    econstructor; [apply surjective_pairing | exact HS].
Qed.

(** Where service is owed, the drain returns after one iteration for each
    callback served. *)
Lemma Served_drain (b : bool) (w w' : World)
    (waiting served : list Callback) :
  Served b w waiting w' served ->
  forall p : Provider,
    world p = w -> callbacks_ p = waiting ->
    exists p',
      drain Run (length served) b p = Some p' /\
      world p' = w' /\ callbacks_ p' = [].
Proof.
  induction 1 as [w|w cb waiting w1 reqs w' served HR HS IH];
    intros p Hw Hq.
  - exists p. simpl. rewrite Hq. auto.
  - change (length (cb :: served)) with (S (length served)).
    rewrite (drain_step Run _ b p Hq). apply IH.
    + now rewrite loop_body_world, Hw, HR.
    + now rewrite (loop_body_callbacks Run b p Hq), Hw, HR.
Qed.

(** With the flag set, the drain serves and its trace says so. *)
Lemma drain_serves (b : bool) (fuel : nat) :
  forall p p' : Provider,
    is_waiting_for_completion_ p = true ->
    drain Run fuel b p = Some p' ->
    exists l served,
      trace p' = trace p ++ l /\
      runs l = map (fun cb => (cb, b)) served /\
      served = callbacks_ p ++ requests l /\
      Served b (world p) (callbacks_ p) (world p') served.
Proof.
  induction fuel as [|fuel IH]; intros p p' Hw H; simpl in H;
    destruct (callbacks_ p) as [|cb q] eqn:E; try discriminate.
  - injection H as <-. exists [], []. rewrite app_nil_r.
    repeat split. constructor.
  - injection H as <-. exists [], []. rewrite app_nil_r.
    repeat split. constructor.
  - rewrite (loop_body_waiting Run b p Hw E) in H.
    apply IH in H; [|reflexivity].
    destruct H as (l & served & Ht & Hr & Hs & HS). simpl in *.
    exists ((EvRun cb b ::
               map (@EvStartQueryInfo Callback) (snd (Run cb b (world p))))
            ++ l), (cb :: served).
    split; [|split; [|split]].
    + rewrite Ht. now rewrite <- app_assoc.
    + rewrite runs_app, Hr. simpl. now rewrite runs_requests.
    + rewrite requests_app. simpl. rewrite requests_requests, Hs.
      now rewrite <- app_assoc.
    + econstructor; [apply surjective_pairing | exact HS].
Qed.

Lemma OnQueryCompleted_serves
    (fuel : nat) (b : bool) (p p' : Provider) :
  is_waiting_for_completion_ p = true ->
  OnQueryCompleted Run fuel b p = Some p' ->
  exists l served,
    p' = mkProvider [] false (worker_pool_ p) (ui_replies p) (world p')
                    (trace p ++ l) /\
    runs l = map (fun cb => (cb, b)) served /\
    served = callbacks_ p ++ requests l /\
    undispatched l /\
    Served b (world p) (callbacks_ p) (world p') served.
Proof.
  intros Hw H.
  destruct (@OnQueryCompleted_spec _ _ Run fuel b p p' Hw H)
    as (l & reqs & Hp' & _ & _ & Hund).
  unfold OnQueryCompleted in H.
  destruct (drain Run fuel b p) as [p1|] eqn:E; [|discriminate].
  injection H as <-.
  destruct (@drain_serves b fuel p p1 Hw E)
    as (l2 & served & Ht & Hr & Hs & HS).
  assert (l2 = l).
  { apply (app_inv_head (trace p)). rewrite <- Ht.
    apply (f_equal (@trace Callback World)) in Hp'. exact Hp'. }
  subst l2. exists l, served. simpl in *. auto.
Qed.




(** *** The service is determined by the clients *)



(** *** Quiet callbacks *)


Lemma quiet_Served (b : bool) (waiting : list Callback) :
  forall w : World,
    quiet_from b w waiting -> exists w', Served b w waiting w' waiting.
Proof.
  induction waiting as [|cb rest IH]; intros w Hq.
  - exists w. constructor.
  - destruct Hq as (Hnone & Hrest).
    destruct (IH _ Hrest) as (w' & HS). exists w'.
    apply Served_front with (w1 := fst (Run cb b w)) (reqs := []).
    + rewrite <- Hnone. apply surjective_pairing.
    + now rewrite app_nil_r.
Qed.


(** The callbacks that the calls of an execution pass, in call order. *)
Definition calls (acts : list Action) : list Callback :=
  flat_map (fun a => match a with
                     | CallStartQueryInfo cb => [cb]
                     | _ => []
                     end) acts.


(** *** When the drain returns *)

(** Loop rule: an invariant of the loop and a measure of the clients' state
    and the queue that each iteration decreases bound the service owed. *)
Lemma variant_Served (b : bool)
    (I : World -> list Callback -> Prop)
    (mu : World -> list Callback -> nat) :
  (forall w cb q,
      I w (cb :: q) ->
      I (fst (Run cb b w)) (q ++ snd (Run cb b w)) /\
      mu (fst (Run cb b w)) (q ++ snd (Run cb b w)) < mu w (cb :: q)) ->
  forall (n : nat) (w : World) (waiting : list Callback),
    I w waiting -> mu w waiting <= n ->
    exists w' served, Served b w waiting w' served /\ length served <= n.
Proof.
  intros Hstep. induction n as [|n IH]; intros w waiting HI Hmu.
  - destruct waiting as [|cb q].
    + exists w, []. split; [constructor | reflexivity].
    + destruct (Hstep _ _ _ HI) as (_ & Hlt). lia.
  - destruct waiting as [|cb q].
    + exists w, []. split; [constructor | simpl; lia].
    + destruct (Hstep _ _ _ HI) as (HI' & Hlt).
      destruct (IH _ _ HI') as (w' & served & HS & Hl); [lia|].
      exists w', (cb :: served). split; [|simpl; lia].
      econstructor; [apply surjective_pairing | exact HS].
Qed.

(** Where service is owed, [OnQueryCompleted] returns, having given it. *)
Lemma Served_OnQueryCompleted (b : bool) (p : Provider) (w' : World)
    (served : list Callback) (fuel : nat) :
  Served b (world p) (callbacks_ p) w' served ->
  length served <= fuel ->
  exists p',
    OnQueryCompleted Run fuel b p = Some p' /\
    world p' = w' /\ callbacks_ p' = [] /\
    is_waiting_for_completion_ p' = false.
Proof.
  intros HS Hle.
  destruct (Served_drain HS p eq_refl eq_refl) as (p1 & Hd & Hw & Hq).
  exists (set_waiting false p1). unfold OnQueryCompleted.
  rewrite (@drain_more_fuel _ _ Run _ fuel b p p1 Hd Hle). auto.
Qed.

(** A drain that has not returned after [fuel] iterations has run [fuel]
    callbacks and finds a callback waiting still. *)
Lemma drain_pending (b : bool) (fuel : nat) :
  forall p : Provider,
    drain Run fuel b p = None ->
    exists h, loop_head Run fuel b p = Some h /\ callbacks_ h <> [].
Proof.
  induction fuel as [|fuel IH]; intros p H; simpl in H;
    destruct (callbacks_ p) as [|cb q] eqn:E; try discriminate.
  - exists p. split; [reflexivity|]. now rewrite E.
  - destruct (IH _ H) as (h & Hh & Hne). exists h. simpl. now rewrite E.
Qed.

(** If the callbacks that were run and those that wait never number more
    than [N], the drain returns within [N] iterations. *)
Lemma bounded_OnQueryCompleted (b : bool) (p : Provider) (N : nat) :
  (forall n h, loop_head Run n b p = Some h ->
               n + length (callbacks_ h) <= N) ->
  exists p',
    OnQueryCompleted Run N b p = Some p' /\
    callbacks_ p' = [] /\ is_waiting_for_completion_ p' = false.
Proof.
  intros Hbound. unfold OnQueryCompleted.
  destruct (drain Run N b p) as [p1|] eqn:E.
  - exists (set_waiting false p1). split; [reflexivity|].
    split; [|reflexivity]. simpl.
    destruct (drain_Served _ _ _ E) as (served & HS & Hl).
    destruct (Served_drain HS p eq_refl eq_refl) as (p2 & Hd & _ & Hq).
    rewrite (@drain_more_fuel _ _ Run _ N b p p2 Hd Hl) in E.
    now injection E as <-.
  - destruct (drain_pending _ _ _ E) as (h & Hh & Hne).
    specialize (Hbound _ _ Hh).
    destruct (callbacks_ h); [contradiction | simpl in Hbound; lia].
Qed.

(** A completed cycle that starts in an idle state has served every
    callback passed during it, each with the result of its one query. *)
Lemma cycle_serves (fuel : nat) (p p' : Provider) (first : Callback)
    (before : list Callback) (success : bool) (after : list Callback) :
  Idle p ->
  run Run fuel (cycle first before success after) p = Some p' ->
  exists l reentrant,
    trace p' = trace p ++ l /\
    posts l = 1 /\ prepares l = 1 /\ queries l = [success] /\
    runs l = map (fun cb => (cb, success))
                 (first :: before ++ after ++ reentrant) /\
    requests l = first :: before ++ after ++ reentrant /\
    Idle p' /\
    Served success (world p) (first :: before ++ after) (world p')
           (first :: before ++ after ++ reentrant).
Proof.
  intros Hidle H. rewrite cycle_run in H by assumption.
  apply OnQueryCompleted_serves in H; [|reflexivity].
  destruct H as (l & served & -> & Hruns & Hs & (Hp & Hpr & Hq) & HS).
  simpl in *.
  destruct (posts_cycle_prefix first before success after)
    as (A & B & C & D & E).
  exists (cycle_prefix first before success after ++ l), (requests l).
  split; [now rewrite app_assoc|].
  rewrite posts_app, prepares_app, queries_app, runs_app, requests_app.
  rewrite A, B, C, D, E, Hp, Hpr, Hq, Hruns.
  rewrite <- app_assoc in Hs. subst served.
  repeat split; simpl; rewrite <- ?app_assoc; auto.
Qed.

End Service.

(* ================================================================== *)
(** ** The coordinator: coalescing, delivery, reuse                    *)
(* ================================================================== *)

Section Coordinator.

Context {Callback World : Type}.
Variable Run : Callback -> bool -> World -> World * list Callback.

Local Abbreviation Provider := (Provider Callback World).
Local Abbreviation Action := (Action Callback).

Lemma drain_leaves_empty (fuel : nat) (b : bool) :
  forall p p' : Provider, drain Run fuel b p = Some p' -> callbacks_ p' = [].
Proof.
  induction fuel as [|fuel IH]; intros p p' H; simpl in H;
    destruct (callbacks_ p) eqn:E; try discriminate.
  - now injection H as <-.
  - now injection H as <-.
  - eapply IH; eassumption.
Qed.

Lemma OnQueryCompleted_leaves_idle (fuel : nat) (b : bool) (p p' : Provider) :
  OnQueryCompleted Run fuel b p = Some p' ->
  is_waiting_for_completion_ p' = false /\ callbacks_ p' = [].
Proof.
  unfold OnQueryCompleted. intros H.
  destruct (drain Run fuel b p) as [p1|] eqn:E; [|discriminate].
  injection H as <-. split; [reflexivity|]. simpl.
  eapply drain_leaves_empty; eassumption.
Qed.

(** C1 (coalescing).  Take an idle provider and a cycle in which [N] calls to
    [StartQueryInfo] are made before the query completes: [first], then
    [before] while the task waits in the pool, then [after] between the run
    of [QueryInfo] and the reply.  A call made while the flag is set only
    enqueues its callback.  When the cycle completes, exactly one task was
    posted, [QueryInfo] ran exactly once, and every one of the [N] callbacks
    (and every callback requested during the drain) was run with the result
    of that one execution: the clients are in the state [Served] gives, in
    which each of these callbacks, in this order, was applied to that result
    in the state its predecessors left.  The cycle does complete for every
    client whose re-requests are well founded. *)
Theorem coalescing (p : Provider) (first : Callback)
    (before after : list Callback) (success : bool) :
  Idle p ->
  (forall (q : Provider) (cb : Callback),
      is_waiting_for_completion_ q = true ->
      StartQueryInfo cb q =
      mkProvider (callbacks_ q ++ [cb]) true (worker_pool_ q) (ui_replies q)
                 (world q) (trace q ++ [EvStartQueryInfo cb])) /\
  (forall rank : Callback -> nat,
      well_founded_client Run rank ->
      exists fuel p',
        run Run fuel (cycle first before success after) p = Some p') /\
  (forall fuel p',
      run Run fuel (cycle first before success after) p = Some p' ->
      exists l reentrant,
        trace p' = trace p ++ l /\
        posts l = 1 /\ prepares l = 1 /\ queries l = [success] /\
        runs l = map (fun cb => (cb, success))
                     (first :: before ++ after ++ reentrant) /\
        requests l = first :: before ++ after ++ reentrant /\
        Idle p' /\
        Served Run success (world p) (first :: before ++ after) (world p')
               (first :: before ++ after ++ reentrant)).
Proof.
  intros Hidle. split; [|split].
  - intros q cb Hq. now apply StartQueryInfo_waiting.
  - intros rank Hrank. now apply cycle_terminates with (rank := rank).
  - intros fuel p' H. now apply cycle_serves with (fuel := fuel).
Qed.



(** The drain does not look at the outcome it delivers. *)
Lemma forget_outcomes_StartQueryInfo (cb : Callback) (p : Provider) :
  forget_outcomes (StartQueryInfo cb p) = StartQueryInfo cb (forget_outcomes p).
Proof.
  unfold StartQueryInfo. simpl.
  destruct (is_waiting_for_completion_ p); unfold forget_outcomes; simpl;
    now rewrite ?map_app.
Qed.

Lemma forget_outcomes_StartQueryInfos (cbs : list Callback) :
  forall p : Provider,
    forget_outcomes (StartQueryInfos cbs p) =
    StartQueryInfos cbs (forget_outcomes p).
Proof.
  induction cbs as [|cb cbs IH]; intros p; [reflexivity|].
  unfold StartQueryInfos in *. simpl.
  now rewrite IH, forget_outcomes_StartQueryInfo.
Qed.

Lemma forget_outcomes_loop_body
    (cb : Callback) (b : bool) (p : Provider) :
  (forall cb w, Run cb true w = Run cb false w) ->
  forget_outcomes (loop_body Run cb b p) =
  loop_body Run cb false (forget_outcomes p).
Proof.
  intros Hblind. unfold loop_body, run_callback. simpl.
  replace (Run cb b (world p)) with (Run cb false (world p))
    by (destruct b; [symmetry; apply Hblind | reflexivity]).
  destruct (Run cb false (world p)) as [w reqs].
  transitivity
    (pop (forget_outcomes
            (StartQueryInfos reqs (set_world w (record (EvRun cb b) p)))));
    [reflexivity|].
  rewrite forget_outcomes_StartQueryInfos. do 2 f_equal.
  unfold forget_outcomes, set_world, record. simpl. now rewrite map_app.
Qed.

Lemma drain_forget_outcomes (b : bool) (fuel : nat) :
  (forall cb w, Run cb true w = Run cb false w) ->
  forall p : Provider,
    option_map (@forget_outcomes Callback World) (drain Run fuel b p) =
    drain Run fuel false (forget_outcomes p).
Proof.
  intros Hblind. induction fuel as [|fuel IH]; intros p; simpl;
    destruct (callbacks_ p) eqn:E; try reflexivity.
  now rewrite IH, forget_outcomes_loop_body.
Qed.

Lemma OnQueryCompleted_forget_outcomes (b : bool) (fuel : nat) (p : Provider) :
  (forall cb w, Run cb true w = Run cb false w) ->
  option_map (@forget_outcomes Callback World) (OnQueryCompleted Run fuel b p) =
  OnQueryCompleted Run fuel false (forget_outcomes p).
Proof.
  intros Hblind. unfold OnQueryCompleted.
  rewrite <- (@drain_forget_outcomes b fuel Hblind).
  now destruct (drain Run fuel b p).
Qed.

(** C4 (uniform outcome, no retry).  A drain entered with the flag set and
    the outcome [success], be it [true] or [false], runs every queued
    callback, and every callback requested meanwhile, with that same
    [success]: the clients end in the state [Served] gives, in which each of
    these callbacks, in queue order, was applied to [success] in the state
    its predecessors left.  The drain posts no task, prepares no query and
    runs none, leaves the pool as it was, and returns with the flag cleared.
    When the callbacks
    themselves react alike to both outcomes, the drain that delivers [false]
    does what the drain that delivers [true] does, step for step, the value
    handed over apart.  The drain returns for every client whose re-requests
    are well founded. *)
Theorem uniform_outcome_no_retry (p : Provider) (success : bool) :
  is_waiting_for_completion_ p = true ->
  (forall fuel p',
      OnQueryCompleted Run fuel success p = Some p' ->
      exists l reentrant,
        trace p' = trace p ++ l /\
        runs l = map (fun cb => (cb, success)) (callbacks_ p ++ reentrant) /\
        (forall cb b, In (cb, b) (runs l) -> b = success) /\
        (forall cb, In cb (callbacks_ p) -> In (cb, success) (runs l)) /\
        posts l = 0 /\ prepares l = 0 /\ queries l = [] /\
        worker_pool_ p' = worker_pool_ p /\
        ui_replies p' = ui_replies p /\
        is_waiting_for_completion_ p' = false /\
        Served Run success (world p) (callbacks_ p) (world p')
               (callbacks_ p ++ reentrant)) /\
  ((forall cb w, Run cb true w = Run cb false w) ->
   forall fuel,
     option_map (@forget_outcomes Callback World) (OnQueryCompleted Run fuel false p) =
     option_map (@forget_outcomes Callback World) (OnQueryCompleted Run fuel true p)) /\
  (forall rank : Callback -> nat,
      well_founded_client Run rank ->
      exists fuel p', OnQueryCompleted Run fuel success p = Some p').
Proof.
  intros Hw. split; [|split].
  2:{ intros Hblind fuel.
      now rewrite !(fun b => @OnQueryCompleted_forget_outcomes b fuel p Hblind). }
  - intros fuel p' H. apply OnQueryCompleted_serves in H; [|exact Hw].
    destruct H as (l & served & Hp' & Hruns & -> & (Hp & Hpr & Hqs) & HS).
    exists l, (requests l). rewrite Hp' at 1 2 3 4. simpl.
    repeat split; auto.
    + intros cb b Hin. rewrite Hruns in Hin. apply in_map_iff in Hin.
      destruct Hin as (c & Hc & _). now injection Hc as _ <-.
    + intros cb Hin. rewrite Hruns. apply in_map_iff. exists cb.
      split; [reflexivity|]. apply in_or_app. now left.
  - intros rank Hrank. now apply OnQueryCompleted_terminates with (rank := rank).
Qed.

(** C7 (idle reuse).  When [OnQueryCompleted] has returned, the flag is clear
    and the queue is empty.  The next [StartQueryInfo] then sets the flag,
    runs the preparation step and posts a new task; its queue holds the new
    callback only, and the drain that follows runs this callback (and what is
    requested during that drain) with the outcome of the new cycle, and
    nothing that belonged to the cycle before. *)
Theorem idle_reuse (fuel : nat) (success : bool) (p0 p : Provider)
    (cb : Callback) :
  OnQueryCompleted Run fuel success p0 = Some p ->
  is_waiting_for_completion_ p = false /\
  callbacks_ p = [] /\
  StartQueryInfo cb p =
    mkProvider [cb] true (S (worker_pool_ p)) (ui_replies p) (world p)
               (trace p ++ [EvStartQueryInfo cb; EvPrepare; EvPostTask]) /\
  (forall fuel' success' p',
      OnQueryCompleted Run fuel' success' (StartQueryInfo cb p) = Some p' ->
      exists l reentrant,
        trace p' = trace (StartQueryInfo cb p) ++ l /\
        runs l = map (fun c => (c, success')) (cb :: reentrant) /\
        undispatched l).
Proof.
  intros H. apply OnQueryCompleted_leaves_idle in H. destruct H as (Hw & Hq).
  split; [assumption|]. split; [assumption|].
  rewrite (StartQueryInfo_idle _ _ Hw), Hq. simpl.
  split; [reflexivity|].
  intros fuel' success' p' H. apply OnQueryCompleted_spec in H; [|reflexivity].
  destruct H as (l & reqs & -> & Hruns & Hreqs & Hund). simpl in *.
  exists l, reqs. auto.
Qed.

End Coordinator.

(* ================================================================== *)
(** ** The invariant, a dropped task, and termination                  *)
(* ================================================================== *)

Section Lifecycle.

Context {Callback World : Type}.
Variable Run : Callback -> bool -> World -> World * list Callback.

Local Abbreviation Provider := (Provider Callback World).
Local Abbreviation Action := (Action Callback).

Lemma consistent_matches (p : Provider) :
  consistent p -> queue_matches_flag p.
Proof.
  intros [Hidle Hq _ _]. split; [exact Hq|].
  intros Hne. destruct (is_waiting_for_completion_ p); [reflexivity|].
  destruct (Hidle eq_refl) as (_ & He & _). contradiction.
Qed.

(** [loop_head] does describe the loop of [drain]. *)
Lemma drain_from_loop_head (n : nat) (b : bool) :
  forall (p h : Provider) (fuel : nat),
    loop_head Run n b p = Some h ->
    drain Run (n + fuel) b p = drain Run fuel b h.
Proof.
  induction n as [|n IH]; intros p h fuel H; simpl in H.
  - now injection H as <-.
  - destruct (callbacks_ p) as [|cb q] eqn:E; [discriminate|].
    change (S n + fuel) with (S (n + fuel)).
    rewrite (drain_step Run _ b p E). now apply IH.
Qed.

Lemma loop_head_waiting (n : nat) (b : bool) :
  forall p h : Provider,
    is_waiting_for_completion_ p = true ->
    loop_head Run n b p = Some h ->
    is_waiting_for_completion_ h = true.
Proof.
  induction n as [|n IH]; intros p h Hw H; simpl in H.
  - now injection H as <-.
  - destruct (callbacks_ p) as [|cb q] eqn:E; [discriminate|].
    apply IH in H; [assumption|].
    now rewrite (loop_body_waiting Run b p Hw E).
Qed.

(** C6 (queue/flag invariant).  At every point at which [StartQueryInfo] or
    [OnQueryCompleted] is entered or left, callbacks are queued if and only if
    the flag is set.  This holds between the tasks of the UI thread (entry and
    exit of the calls made by clients, entry and exit of the reply), and at
    the entry and exit of every call that a running callback makes during the
    drain.  When the flag is clear the queue is empty.  [StartQueryInfo]
    pushes its callback whether or not the flag is set: the push comes before
    the test. *)
Theorem queue_flag_invariant (p : Provider) :
  reachable Run p ->
  queue_matches_flag p /\
  (is_waiting_for_completion_ p = false -> callbacks_ p = []) /\
  (forall (q : Provider) (cb : Callback),
      callbacks_ (StartQueryInfo cb q) = callbacks_ q ++ [cb]) /\
  (forall cb : Callback, queue_matches_flag (StartQueryInfo cb p)) /\
  (forall success rest,
      ui_replies p = success :: rest ->
      queue_matches_flag (set_replies rest p) /\
      (forall n h callback q k,
          loop_head Run n success (set_replies rest p) = Some h ->
          callbacks_ h = callback :: q ->
          queue_matches_flag (run_callback_upto Run k callback success h)) /\
      (forall fuel p',
          OnQueryCompleted Run fuel success (set_replies rest p) = Some p' ->
          queue_matches_flag p' /\
          is_waiting_for_completion_ p' = false /\ callbacks_ p' = [])).
Proof.
  intros Hreach. pose proof (reachable_consistent Hreach) as Hc.
  pose proof (consistent_matches Hc) as Hm.
  split; [exact Hm|]. split; [|split; [|split; [|]]].
  - intros Hw. now destruct (idle_when_clear Hc Hw) as (_ & He & _).
  - intros q cb. apply StartQueryInfo_callbacks.
  - intros cb. apply consistent_matches. now apply consistent_StartQueryInfo.
  - intros success rest Hr.
    assert (Hw : is_waiting_for_completion_ p = true).
    { destruct (is_waiting_for_completion_ p) eqn:E; [reflexivity|].
      destruct (idle_when_clear Hc E) as (_ & _ & _ & Hn). congruence. }
    split; [exact Hm|]. split.
    + intros n h callback q k Hh Hq.
      assert (Hwh : is_waiting_for_completion_ h = true)
        by (eapply loop_head_waiting; [|eassumption]; exact Hw).
      rewrite run_callback_upto_waiting by assumption.
      unfold queue_matches_flag. simpl. rewrite Hq. simpl.
      split; [discriminate | reflexivity].
    + intros fuel p' H. apply OnQueryCompleted_leaves_idle in H.
      destruct H as (Hw' & Hq'). unfold queue_matches_flag.
      rewrite Hw', Hq'. repeat split; try discriminate. congruence.
Qed.

(** *** A task that is dropped *)

Lemma stranded_run (fuel : nat) (acts : list Action) :
  forall p p' : Provider,
    stranded p -> run Run fuel acts p = Some p' ->
    exists cbs,
      acts = map (@CallStartQueryInfo Callback) cbs /\
      p' = StartQueryInfos cbs p /\ stranded p'.
Proof.
  induction acts as [|a acts IH]; intros p p' Hs H; simpl in H.
  - injection H as <-. exists []. auto.
  - destruct Hs as (Hw & Hp & Hr).
    destruct a as [cb|b| |]; simpl in H; rewrite ?Hp, ?Hr in H;
      try discriminate.
    apply IH in H.
    + destruct H as (cbs & -> & -> & Hs'). exists (cb :: cbs). auto.
    + rewrite StartQueryInfo_waiting by assumption. repeat split; assumption.
Qed.

(** C5, as the code has it (dropped task).  Let the pool drop the task of a
    reachable provider.  Then [OnQueryCompleted] is never run: whatever
    happens afterwards consists of calls to [StartQueryInfo], which only
    enqueue; the flag stays set, no callback is run, no task is posted, and
    the callbacks that were queued stay queued. *)
Theorem dropped_task_strands_callbacks (p : Provider) :
  reachable Run p ->
  0 < worker_pool_ p ->
  exists p1,
    (forall fuel, exec Run fuel (PoolDropsTask Callback) p = Some p1) /\
    stranded p1 /\
    callbacks_ p1 = callbacks_ p /\ callbacks_ p1 <> [] /\
    trace p1 = trace p /\
    (forall fuel acts p',
        run Run fuel acts p1 = Some p' ->
        exists cbs,
          acts = map (@CallStartQueryInfo Callback) cbs /\
          is_waiting_for_completion_ p' = true /\
          callbacks_ p' = callbacks_ p1 ++ cbs /\
          runs (trace p') = runs (trace p1) /\
          posts (trace p') = posts (trace p1) /\
          stranded p').
Proof.
  intros Hreach Hpool. pose proof (reachable_consistent Hreach) as Hc.
  destruct (worker_pool_ p) as [|n] eqn:En; [lia|].
  assert (Hw : is_waiting_for_completion_ p = true).
  { destruct (is_waiting_for_completion_ p) eqn:E; [reflexivity|].
    destruct (idle_when_clear Hc E) as (_ & _ & Hn & _). congruence. }
  pose proof (one_in_flight Hc Hw) as Hone. rewrite En in Hone.
  assert (n = 0) by lia. subst n.
  assert (Hr : ui_replies p = [])
    by (destruct (ui_replies p); [reflexivity | simpl in Hone; lia]).
  exists (set_pool 0 p).
  assert (Hs : stranded (set_pool 0 p)) by (repeat split; assumption).
  split; [|split; [exact Hs|split; [reflexivity|split; [|split]]]].
  - intros fuel. simpl. now rewrite En.
  - simpl. now apply (queued_when_set Hc).
  - reflexivity.
  - intros fuel acts p' H. apply stranded_run in H; [|exact Hs].
    destruct H as (cbs & -> & -> & Hs'). exists cbs.
    rewrite StartQueryInfos_waiting by apply Hs. simpl.
    rewrite runs_app, posts_app, runs_requests, posts_requests.
    rewrite app_nil_r, Nat.add_0_r. repeat split; auto.
Qed.

(** *** Termination of the drain *)

Lemma drain_quiet (b : bool) (q : list Callback) :
  (forall cb b w, snd (Run cb b w) = []) ->
  forall p : Provider,
    callbacks_ p = q ->
    exists p', drain Run (length q) b p = Some p'.
Proof.
  intros Hquiet. induction q as [|cb q IH]; intros p Hq.
  - exists p. now apply drain_empty.
  - change (length (cb :: q)) with (S (length q)).
    rewrite (drain_step Run _ b p Hq). apply IH.
    rewrite (loop_body_callbacks Run b p Hq), Hquiet. apply app_nil_r.
Qed.

Lemma drain_forever (b : bool) (c : Callback) :
  (forall w, In c (snd (Run c b w))) ->
  forall (fuel : nat) (p : Provider),
    In c (callbacks_ p) -> drain Run fuel b p = None.
Proof.
  intros Hc. induction fuel as [|fuel IH]; intros p Hin.
  - simpl. destruct (callbacks_ p); [contradiction | reflexivity].
  - destruct (callbacks_ p) as [|cb q] eqn:E; [contradiction|].
    rewrite (drain_step Run _ b p E). apply IH.
    rewrite (loop_body_callbacks Run b p E). apply in_or_app.
    destruct Hin as [->|Hin]; [right; apply Hc | now left].
Qed.

(** C10 (termination of the drain).  The loop of [OnQueryCompleted]
    terminates, for every queue it starts with, when the callbacks it runs
    enqueue finitely many callbacks in all: if the callbacks run and those
    waiting never number more than [N], it returns within [N] iterations;
    if the service owed to the queue is finite, it returns after one
    iteration for each callback served and leaves the clients as that
    service does.  A loop invariant with a measure that every iteration
    decreases, or a rank that every re-request decreases, is enough for
    that.  In particular as many iterations as callbacks are queued are
    enough when no callback that is run calls [StartQueryInfo].  Whenever
    [OnQueryCompleted] returns, the queue is empty, the flag is clear and
    the callbacks were served.  A queued callback that requests itself again
    each time it is run keeps the loop running for ever. *)
Theorem drain_termination (success : bool) (p : Provider) :
  (forall N : nat,
      (forall n h,
          loop_head Run n success p = Some h ->
          n + length (callbacks_ h) <= N) ->
      exists p',
        OnQueryCompleted Run N success p = Some p' /\
        callbacks_ p' = [] /\ is_waiting_for_completion_ p' = false) /\
  (forall (w' : World) (served : list Callback),
      Served Run success (world p) (callbacks_ p) w' served ->
      exists p',
        OnQueryCompleted Run (length served) success p = Some p' /\
        world p' = w' /\
        callbacks_ p' = [] /\ is_waiting_for_completion_ p' = false) /\
  (forall (I : World -> list Callback -> Prop)
          (mu : World -> list Callback -> nat),
      I (world p) (callbacks_ p) ->
      (forall w cb q,
          I w (cb :: q) ->
          I (fst (Run cb success w)) (q ++ snd (Run cb success w)) /\
          mu (fst (Run cb success w)) (q ++ snd (Run cb success w))
          < mu w (cb :: q)) ->
      exists p',
        OnQueryCompleted Run (mu (world p) (callbacks_ p)) success p
        = Some p' /\
        callbacks_ p' = [] /\ is_waiting_for_completion_ p' = false) /\
  (forall rank : Callback -> nat,
      well_founded_client Run rank ->
      exists fuel p',
        OnQueryCompleted Run fuel success p = Some p' /\
        callbacks_ p' = [] /\ is_waiting_for_completion_ p' = false) /\
  (quiet_from Run success (world p) (callbacks_ p) ->
   exists p',
     OnQueryCompleted Run (length (callbacks_ p)) success p = Some p' /\
     callbacks_ p' = [] /\ is_waiting_for_completion_ p' = false) /\
  (forall fuel p',
      OnQueryCompleted Run fuel success p = Some p' ->
      callbacks_ p' = [] /\ is_waiting_for_completion_ p' = false /\
      exists served,
        Served Run success (world p) (callbacks_ p) (world p') served /\
        length served <= fuel) /\
  (forall c : Callback,
      In c (callbacks_ p) ->
      (forall w, In c (snd (Run c success w))) ->
      forall fuel, OnQueryCompleted Run fuel success p = None).
Proof.
  split; [|split; [|split; [|split; [|split; [|split]]]]].
  - intros N Hbound. now apply bounded_OnQueryCompleted.
  - intros w' served HS. exact (Served_OnQueryCompleted p HS (le_n _)).
  - intros I mu HI Hstep.
    destruct (@variant_Served _ _ Run success I mu Hstep _ _ _ HI (le_n _))
      as (w' & served & HS & Hl).
    destruct (Served_OnQueryCompleted p HS Hl) as (p' & H & _ & Hq & Hw).
    exists p'. auto.
  - intros rank Hrank.
    destruct (OnQueryCompleted_terminates Hrank success p) as (fuel & p' & H).
    exists fuel, p'. split; [assumption|].
    apply OnQueryCompleted_leaves_idle in H. tauto.
  - intros Hquiet.
    destruct (@quiet_Served _ _ Run success _ _ Hquiet) as (w' & HS).
    destruct (Served_OnQueryCompleted p HS (le_n _)) as (p' & H & _ & Hq & Hw).
    exists p'. auto.
  - intros fuel p' H.
    destruct (@OnQueryCompleted_leaves_idle _ _ Run fuel success p p' H)
      as (Hw & Hq).
    split; [assumption|]. split; [assumption|].
    unfold OnQueryCompleted in H.
    destruct (drain Run fuel success p) as [p1|] eqn:E; [|discriminate].
    injection H as <-. simpl. now apply drain_Served.
  - intros c Hin Hc fuel. unfold OnQueryCompleted.
    now rewrite (drain_forever success c Hc fuel p Hin).
Qed.

End Lifecycle.

(* ================================================================== *)
(** ** The coordinator on sample clients                               *)
(* ================================================================== *)

Import Samples.
Import Clients.


Lemma fresh_idle : Idle fresh.
Proof. repeat split. Qed.

(** A whole cycle of the countdown client, run: callback 2 requests callback
    1, which requests callback 0; everything is served by the one drain. *)
Example countdown_cycle :
  run countdown 4
      [CallStartQueryInfo 2; CallStartQueryInfo 0; PoolRunsQueryInfo nat true;
       ReplyOnQueryCompleted nat] fresh = Some replied.
Proof. reflexivity. Qed.

Example countdown_at_reply :
  run countdown 0
      [CallStartQueryInfo 2; CallStartQueryInfo 0; PoolRunsQueryInfo nat true]
      fresh = Some (set_replies [true] at_reply).
Proof. reflexivity. Qed.

Example countdown_reply :
  OnQueryCompleted countdown 4 true at_reply = Some replied.
Proof. reflexivity. Qed.

(** Three iterations are not enough for this drain. *)
Example countdown_reply_short :
  OnQueryCompleted countdown 3 true at_reply = None.
Proof. reflexivity. Qed.

(** The second iteration of that drain finds callback 0 in front; callback 2
    has been run and has requested callback 1. *)
Example countdown_second_iteration :
  loop_head countdown 1 true at_reply =
  Some (mkProvider [0; 1] true 0 [] 1
          (trace at_reply ++ [EvRun 2 true; EvStartQueryInfo 1])).
Proof. reflexivity. Qed.

(** While callback 2 runs, it is still in front of the queue. *)
Example countdown_inside_callback :
  callbacks_ (run_callback_upto countdown 1 2 true at_reply) = [2; 0; 1].
Proof. reflexivity. Qed.

Lemma requested_reachable : reachable countdown requested.
Proof. exists 0, 0, [CallStartQueryInfo 2]. reflexivity. Qed.

Lemma ledger_fresh_idle : Idle ledger_fresh.
Proof. repeat split. Qed.

(** The ledger after a whole cycle: every callback was handed [true]. *)
Example ledger_cycle_run :
  run ledger 6 (cycle 2 [0] true [1]) ledger_fresh = Some ledger_cycled.
Proof. reflexivity. Qed.


Example ledger_reply (b : bool) :
  OnQueryCompleted ledger 4 b (ledger_at_reply b) = Some (ledger_replied b).
Proof. reflexivity. Qed.

Lemma coalescing_witness :
  Idle ledger_fresh /\
  exists l reentrant,
    trace ledger_cycled = trace ledger_fresh ++ l /\
    posts l = 1 /\ prepares l = 1 /\ queries l = [true] /\
    runs l = map (fun cb => (cb, true)) (2 :: [0] ++ [1] ++ reentrant) /\
    requests l = 2 :: [0] ++ [1] ++ reentrant /\
    Idle ledger_cycled /\
    Served ledger true [] (2 :: [0] ++ [1])
           [(2, true); (0, true); (1, true); (1, true); (0, true); (0, true)]
           (2 :: [0] ++ [1] ++ reentrant).
Proof.
  split; [exact ledger_fresh_idle|].
  exact (proj2 (proj2 (coalescing ledger 2 [0] [1] true ledger_fresh_idle))
           6 ledger_cycled ledger_cycle_run).
Defined.



Lemma uniform_outcome_no_retry_witness :
  is_waiting_for_completion_ (ledger_at_reply false) = true /\
  exists l reentrant,
    trace (ledger_replied false) = trace (ledger_at_reply false) ++ l /\
    runs l = map (fun cb => (cb, false)) ([2; 0] ++ reentrant) /\
    (forall cb b, In (cb, b) (runs l) -> b = false) /\
    (forall cb, In cb [2; 0] -> In (cb, false) (runs l)) /\
    posts l = 0 /\ prepares l = 0 /\ queries l = [] /\
    worker_pool_ (ledger_replied false) = 0 /\
    ui_replies (ledger_replied false) = [] /\
    is_waiting_for_completion_ (ledger_replied false) = false /\
    Served ledger false [] [2; 0]
           [(2, false); (0, false); (1, false); (0, false)]
           ([2; 0] ++ reentrant).
Proof.
  split; [reflexivity|].
  exact (proj1 (uniform_outcome_no_retry ledger (ledger_at_reply false) false
                  eq_refl)
           4 (ledger_replied false) (ledger_reply false)).
Defined.

Lemma idle_reuse_witness :
  is_waiting_for_completion_ replied = false /\
  callbacks_ replied = [] /\
  StartQueryInfo 5 replied =
    mkProvider [5] true (S (worker_pool_ replied)) (ui_replies replied)
               (world replied)
               (trace replied ++ [EvStartQueryInfo 5; EvPrepare; EvPostTask]).
Proof.
  pose proof (idle_reuse countdown 4 true at_reply 5 countdown_reply) as H.
  exact (conj (proj1 H) (conj (proj1 (proj2 H)) (proj1 (proj2 (proj2 H))))).
Defined.

Lemma queue_flag_invariant_witness :
  reachable countdown requested /\ queue_matches_flag requested.
Proof.
  split; [exact requested_reachable|].
  exact (proj1 (queue_flag_invariant requested_reachable)).
Defined.

Lemma dropped_task_strands_callbacks_witness :
  exists p1,
    (forall fuel, exec countdown fuel (PoolDropsTask nat) requested = Some p1)
    /\ stranded p1.
Proof.
  destruct (dropped_task_strands_callbacks requested_reachable
              (Nat.lt_0_succ 0)) as (p1 & H1 & H2 & _).
  exists p1. exact (conj H1 H2).
Defined.

(** C5, refuted as stated.  A client requests with callback 7 and the pool
    drops the task: whatever happens afterwards, the provider is never idle
    again and callback 7 is never run, in particular not with [false]. *)
Lemma dropped_task_never_resolved :
  exists p1 : Provider nat unit,
    run quiet 0 [CallStartQueryInfo 7; PoolDropsTask nat]
        (SystemInfoProvider nat tt) = Some p1 /\
    callbacks_ p1 = [7] /\
    forall fuel acts p',
      run quiet fuel acts p1 = Some p' ->
      ~ Idle p' /\ runs (trace p') = [] /\ In 7 (callbacks_ p').
Proof.
  eexists. split; [reflexivity|]. split; [reflexivity|].
  intros fuel acts p' H. apply stranded_run in H; [|repeat split].
  destruct H as (cbs & -> & -> & Hs).
  rewrite StartQueryInfos_waiting by reflexivity. simpl.
  split; [|split].
  - intros (Hw & _). discriminate.
  - apply runs_requests.
  - now left.
Qed.


(** The callback of C10's last clause.  Every callback of the client
    [again] passes one callback to [StartQueryInfo] each time it runs; the
    drain of a queue holding one of them does not terminate. *)
Lemma finite_requests_endless_drain :
  exists p : Provider nat unit,
    callbacks_ p = [0] /\
    (forall cb b w, length (snd (again cb b w)) = 1) /\
    (forall fuel, OnQueryCompleted again fuel true p = None).
Proof.
  exists (StartQueryInfo 0 (SystemInfoProvider nat tt)).
  split; [reflexivity|]. split; [reflexivity|].
  intros fuel. unfold OnQueryCompleted.
  rewrite (@drain_forever nat unit again true 0); [reflexivity| |].
  - intros w. now left.
  - now left.
Qed.

(** The retry client is not quiet and has no rank, since a callback asks
    again with itself; the retries left and the length of the queue measure
    its drain. *)
Lemma retry_measure (success : bool) (w cb : nat) (q : list nat) :
  True /\
  fst (retry cb success w) + length (q ++ snd (retry cb success w))
  < w + length (cb :: q).
Proof.
  split; [exact I|].
  destruct success, w; simpl; rewrite ?length_app, ?app_nil_r; simpl; lia.
Qed.

Example retry_drain :
  OnQueryCompleted retry 3 false retry_queued =
  Some (mkProvider [] false 0 [] 0
          [EvRun 7 false; EvStartQueryInfo 7;
           EvRun 7 false; EvStartQueryInfo 7; EvRun 7 false]).
Proof. reflexivity. Qed.

Example retry_drain_short :
  OnQueryCompleted retry 2 false retry_queued = None.
Proof. reflexivity. Qed.

Lemma drain_termination_witness :
  (exists p',
      OnQueryCompleted retry 3 false retry_queued = Some p' /\
      callbacks_ p' = [] /\ is_waiting_for_completion_ p' = false) /\
  (exists p',
      OnQueryCompleted retry 1 true retry_queued = Some p' /\
      callbacks_ p' = [] /\ is_waiting_for_completion_ p' = false).
Proof.
  split.
  - exact (proj1 (proj2 (proj2 (drain_termination retry false retry_queued)))
             (fun _ _ => True) (fun w q => w + length q) I
             (fun w cb q _ => retry_measure false w cb q)).
  - exact (proj1 (proj2 (proj2 (proj2 (proj2
             (drain_termination retry true retry_queued)))))
             (conj eq_refl I)).
Defined.

(* ================================================================== *)
(** ** The single shared instance                                      *)
(* ================================================================== *)

Import Singleton.

Section HolderFacts.

Variable Instance : Type.
Variable new_I : nat -> Instance.

Local Abbreviation Holder := (Holder Instance).

Lemma GetInstance_installed (h : Holder) (i : Instance) :
  provider_ h = Some i -> GetInstance new_I h = (Some i, h).
Proof. intros H. unfold GetInstance. now rewrite H, H. Qed.

Lemma GetInstances_installed (n : nat) (h : Holder) (i : Instance) :
  provider_ h = Some i -> GetInstances new_I n h = (repeat (Some i) n, h).
Proof.
  intros H. induction n as [|n IH]; cbn [GetInstances]; [reflexivity|].
  now rewrite (GetInstance_installed h H), IH.
Qed.

(** C8 (singleton registry).  The holder starts out empty and nothing is
    built before the first call.  Any number of calls of [GetInstance] on the
    fresh holder build one object, on the first call, and all of them return
    it.  After [InitializeForTesting(d)], whatever the holder held, and in
    particular when it is fresh, every later [GetInstance] returns [d] and
    builds nothing. *)
Theorem singleton_registry :
  provider_ (LazyInstance Instance) = None /\
  constructions (LazyInstance Instance) = 0 /\
  (forall n,
      GetInstances new_I (S n) (LazyInstance Instance) =
      (repeat (Some (new_I 0)) (S n), mkHolder (Some (new_I 0)) 1)) /\
  (forall (d : Instance) (h : Holder),
      exists h',
        InitializeForTesting (Some d) h = Some h' /\
        constructions h' = constructions h /\
        forall n, GetInstances new_I n h' = (repeat (Some d) n, h')) /\
  (forall (d : Instance) (n : nat),
      exists h',
        InitializeForTesting (Some d) (LazyInstance Instance) = Some h' /\
        GetInstances new_I n h' = (repeat (Some d) n, h') /\
        constructions h' = 0).
Proof.
  split; [reflexivity|]. split; [reflexivity|]. split; [|split].
  - intros n. simpl.
    now rewrite (@GetInstances_installed n (mkHolder (Some (new_I 0)) 1)
                   (new_I 0) eq_refl).
  - intros d h. eexists. split; [reflexivity|]. split; [reflexivity|].
    intros n. now apply GetInstances_installed.
  - intros d n. eexists. split; [reflexivity|]. split; [|reflexivity].
    now apply GetInstances_installed.
Qed.

End HolderFacts.

(** Three calls in production; a test double installed first. *)
Example three_calls_one_object :
  GetInstances (fun n => n) 3 (LazyInstance nat) =
  ([Some 0; Some 0; Some 0], mkHolder (Some 0) 1).
Proof. reflexivity. Qed.

Example test_double_first :
  option_map (GetInstances (fun n => n) 2)
             (InitializeForTesting (Some 42) (LazyInstance nat)) =
  Some ([Some 42; Some 42], mkHolder (Some 42) 0).
Proof. reflexivity. Qed.

(* ================================================================== *)
(** ** The integrity test                                              *)
(* ================================================================== *)

Import SqliteDiagnostics.

Section IntegrityFacts.

Variable IsAbsolute : FilePath -> bool.
Variable Append : FilePath -> FilePath -> FilePath.
Variable GetUserDefaultProfileDir : FilePath.
Variable PathExists : FilePath -> bool.
Variable sqlite : FilePath -> Database.

Local Abbreviation resolved :=
  (resolved_path IsAbsolute Append GetUserDefaultProfileDir).
Local Abbreviation Execute :=
  (ExecuteImpl IsAbsolute Append GetUserDefaultProfileDir PathExists sqlite).

Lemma has_error_fold (es : list SqliteError) (r : ErrorRecorder) :
  has_error (fold_left RecordSqliteError es r) =
  match es with [] => has_error r | _ :: _ => true end.
Proof.
  revert r. induction es as [|e es IH]; intros r; [reflexivity|].
  simpl. rewrite IH. now destruct es.
Qed.

Lemma has_error_after (es : list SqliteError) :
  has_error (recorder_after es) = match es with [] => false | _ => true end.
Proof. unfold recorder_after. now rewrite has_error_fold. Qed.

(** The counter of the loop counts the rows that are not "ok". *)
Lemma count_errors_filter (rows : list string) :
  count_errors rows =
  Z.of_nat (length (filter (fun r => negb (r =? "ok")%string) rows)).
Proof.
  unfold count_errors.
  assert (G : forall acc,
             fold_left
               (fun errors result =>
                  if negb (result =? "ok")%string then errors + 1 else errors)
               rows acc =
             acc + Z.of_nat
                     (length (filter (fun r => negb (r =? "ok")%string) rows))).
  { induction rows as [|r rows IH]; intros acc; simpl; [lia|].
    rewrite IH. destruct (negb (r =? "ok")%string); simpl length; lia. }
  now rewrite G.
Qed.

(** Two classifications that record the same belong to the same outcome. *)
Lemma records_class_kind (critical : bool) (c c' : Classification) :
  records_class critical c = records_class critical c' -> kind c = kind c'.
Proof.
  destruct c as [[]| |], c' as [[]| |], critical; simpl; intros H;
    try reflexivity; discriminate.
Qed.

(** Closes one case of the classification: names the outcome recorded, then
    settles every condition of the statement. *)
Ltac classified :=
  cbn [negb fst snd];
  split;
  [ first [ exists (listed ok); reflexivity
          | eexists (listed (corrupted _)); reflexivity
          | exists (listed notFound); reflexivity
          | exists (listed cannotOpen); reflexivity
          | exists (listed locked); reflexivity
          | eexists (pragmaFailed _); reflexivity
          | eexists (errorHandlerCalled _); reflexivity ]
  | repeat split; intros; try reflexivity; try discriminate;
    try congruence; try lia;
    match goal with
    | H1 : ?r = records_class ?b ?c, H2 : ?r = records_class ?b ?c'
      |- kind ?c = kind ?c' =>
        apply (@records_class_kind b c c'); now rewrite <- H1
    end ].

(** C9, as the code has it (classification).  The test records one, and only
    one, of seven outcomes: the five of the specification, a failed pragma,
    and a call of the error handler.  A missing file gives notFound; a failed open gives
    cannotOpen; an error reported to the handler while opening, while
    preparing the pragma or while stepping gives errorHandlerCalled; a pragma
    that could not be prepared gives locked when the error code is
    SQLITE_BUSY and pragmaFailed otherwise, and these two are the only cases
    in which [ExecuteImpl] returns false; [n > 0] rows other than "ok" give
    corrupted(n); otherwise the outcome is ok. *)
Theorem integrity_classification (t : SqliteIntegrityTest) :
  let path := resolved t in
  let db := sqlite path in
  let n := Z.of_nat
             (length (filter (fun r => negb (r =? "ok")%string)
                             (Step_rows db))) in
  let recorded := fst (Execute t) in
  let returned := snd (Execute t) in
  (exists c, recorded = records_class (critical_ t) c) /\
  (forall c c',
      recorded = records_class (critical_ t) c ->
      recorded = records_class (critical_ t) c' -> kind c = kind c') /\
  (PathExists path = false ->
   recorded = records (critical_ t) notFound /\ returned = true) /\
  (PathExists path = true -> Open db = false ->
   recorded = records (critical_ t) cannotOpen /\ returned = true) /\
  (PathExists path = true -> Open db = true -> Open_errors db <> [] ->
   recorded = records_class (critical_ t)
                (errorHandlerCalled (recorder_after (Open_errors db))) /\
   returned = true) /\
  (PathExists path = true -> Open db = true -> Open_errors db = [] ->
   (GetUniqueStatement_errors db <> [] ->
    recorded = records_class (critical_ t)
                 (errorHandlerCalled
                    (recorder_after (GetUniqueStatement_errors db))) /\
    returned = true) /\
   (GetUniqueStatement_errors db = [] -> is_valid db = false ->
    (GetErrorCode db = SQLITE_BUSY ->
     recorded = records (critical_ t) locked /\ returned = false) /\
    (GetErrorCode db <> SQLITE_BUSY ->
     recorded = records_class (critical_ t) (pragmaFailed (GetErrorCode db))
     /\ returned = false)) /\
   (GetUniqueStatement_errors db = [] -> is_valid db = true ->
    (Step_errors db <> [] ->
     recorded = records_class (critical_ t)
                  (errorHandlerCalled (recorder_after (Step_errors db))) /\
     returned = true) /\
    (Step_errors db = [] -> n > 0 ->
     recorded = records (critical_ t) (corrupted n) /\ returned = true) /\
    (Step_errors db = [] -> n = 0 ->
     recorded = records (critical_ t) ok /\ returned = true))).
Proof.
  intros path db n recorded returned. subst recorded returned.
  unfold ExecuteImpl. fold path. fold db.
  rewrite count_errors_filter. fold n.
  rewrite !has_error_fold. change (has_error ErrorRecorder_new) with false.
  destruct (critical_ t);
    (destruct (PathExists path); [|classified]);
    (destruct (Open db); [|classified]);
    (destruct (Open_errors db) as [|e1 es1]; [|classified]);
    (destruct (GetUniqueStatement_errors db) as [|e2 es2]; [|classified]);
    (destruct (is_valid db);
     [ destruct (Step_errors db) as [|e3 es3]; [|classified];
       destruct (Z.eqb_spec n 0) as [En|En]; classified
     | destruct (Z.eqb_spec SQLITE_BUSY (GetErrorCode db)) as [Eb|Eb];
       classified ]).
Qed.

End IntegrityFacts.

(** The test of the web database on the sample file system. *)
Example sound_database_ok :
  ExecuteImpl absolute join "/p" only_web_data sound_database web_data_test =
  (RecordSuccess "No corruption detected", true).
Proof. reflexivity. Qed.

Example damaged_database_corrupted :
  ExecuteImpl absolute join "/p" only_web_data damaged_database web_data_test
  = (RecordFailure DIAG_SQLITE_DB_CORRUPTED
       "Database corruption detected: 2 errors", true).
Proof. reflexivity. Qed.

Example missing_file_not_found :
  ExecuteImpl absolute join "/q" only_web_data sound_database web_data_test =
  (RecordOutcome DIAG_SQLITE_FILE_NOT_FOUND "File not found"
                 TEST_FAIL_CONTINUE, true).
Proof. reflexivity. Qed.

(** C9, refuted as stated.  The file exists, the database opens, the error
    handler is never called, the pragma cannot be prepared and the error code
    is 1, not SQLITE_BUSY; no row other than "ok" is seen.  The test records
    DIAG_SQLITE_PRAGMA_FAILED, which is none of ok, corrupted(n), notFound,
    cannotOpen and locked. *)
Lemma pragma_failure_not_listed :
  let t := web_data_test in
  let db := pragma_fails (resolved_path absolute join "/p" t) in
  only_web_data (resolved_path absolute join "/p" t) = true /\
  Open db = true /\
  GetErrorCode db <> SQLITE_BUSY /\
  count_errors (Step_rows db) = 0%Z /\
  ExecuteImpl absolute join "/p" only_web_data pragma_fails t =
    (RecordFailure DIAG_SQLITE_PRAGMA_FAILED "Pragma failed. Error: 1", false)
  /\
  forall o : CheckResult,
    fst (ExecuteImpl absolute join "/p" only_web_data pragma_fails t) <>
    records (critical_ t) o.
Proof.
  cbv zeta. split; [reflexivity|]. split; [reflexivity|].
  split; [discriminate|]. split; [reflexivity|]. split; [reflexivity|].
  intros o. destruct o; discriminate.
Qed.

(* ================================================================== *)
(** ** PepperFileRefHost                                               *)
(* ================================================================== *)

Module PepperFileRef.

Open Scope Z_scope.

(** [PP_FileSystemType]: the values the file names, and the others. *)
Inductive PP_FileSystemType : Type :=
| PP_FILESYSTEMTYPE_INVALID
| PP_FILESYSTEMTYPE_EXTERNAL
| PP_FILESYSTEMTYPE_LOCALPERSISTENT
| PP_FILESYSTEMTYPE_LOCALTEMPORARY
| PP_FILESYSTEMTYPE_other (value : Z).

Section Host.

(** [PP_Time], [ppapi::host::HostMessageContext] and the reply context made
    from it, and [PepperFileSystemBrowserHost] with its [GetType()]. *)
Variable PP_Time : Type.
Variable HostMessageContext : Type.
Variable ReplyMessageContext : Type.
Variable MakeReplyMessageContext : HostMessageContext -> ReplyMessageContext.
Variable PepperFileSystemBrowserHost : Type.
Variable GetType : PepperFileSystemBrowserHost -> PP_FileSystemType.

(** The result codes of ppapi/c/pp_errors.h and the permission masks of
    webkit/browser/fileapi/file_permission_policy.h, all [int]. *)
Variable PP_OK : Z.
Variable PP_ERROR_FAILED : Z.
Variable PP_ERROR_BADRESOURCE : Z.
Variable PP_ERROR_NOACCESS : Z.
Variable kReadFilePermissions : Z.
Variable kWriteFilePermissions : Z.
Variable kCreateFilePermissions : Z.

(** [ppapi::IsValidInternalPath] and [ppapi::IsValidExternalPath]. *)
Variable IsValidInternalPath : string -> bool.
Variable IsValidExternalPath : string -> bool.

(** The two backends the constructors build, with the arguments they are
    built from. *)
Inductive Backend : Type :=
| PepperInternalFileRefBackend
    (render_process_id : Z) (fs_host : PepperFileSystemBrowserHost)
    (path : string)
| PepperExternalFileRefBackend
    (render_process_id : Z) (external_path : string).

(** The members [fs_type_] and [backend_] ([scoped_ptr], [None] when null).
    The member [host_] is the same object for every file ref of a plugin
    process; the functions below take it as an argument. *)
Record PepperFileRefHost : Type := mkPepperFileRefHost {
  fs_type_ : PP_FileSystemType;
  backend_ : option Backend
}.

(** A [ResourceHost]: a file ref, a file system, or something else. *)
Inductive ResourceHost : Type :=
| FileRefResource (file_ref : PepperFileRefHost)
| FileSystemResource (fs : PepperFileSystemBrowserHost)
| OtherResource.

(** [AsPepperFileRefHost()] returns [this] on a file ref; on every other
    resource host it and [AsPepperFileSystemBrowserHost()] are the base
    class's, which return NULL. *)
Definition AsPepperFileRefHost (r : ResourceHost) : option PepperFileRefHost :=
  match r with
  | FileRefResource file_ref => Some file_ref
  | _ => None
  end.

Definition AsPepperFileSystemBrowserHost (r : ResourceHost)
  : option PepperFileSystemBrowserHost :=
  match r with
  | FileSystemResource fs => Some fs
  | _ => None
  end.

(** [BrowserPpapiHost], as far as the file uses it:
    [GetRenderViewIDsForInstance], [GetPpapiHost()->GetResourceHost] and
    [GetPpapiHost()->permissions().HasPermission(PERMISSION_PRIVATE)]. *)
Record BrowserPpapiHost : Type := mkBrowserPpapiHost {
  GetRenderViewIDsForInstance : Z -> option (Z * Z);
  GetResourceHost : Z -> option ResourceHost;
  HasPermission_PRIVATE : bool
}.

(** The calls a handler makes on [backend_]. *)
Inductive BackendCall : Type :=
| MakeDirectory (reply : ReplyMessageContext) (make_ancestors : bool)
| Touch (reply : ReplyMessageContext)
        (last_access_time last_modified_time : PP_Time)
| Delete (reply : ReplyMessageContext)
| Rename (reply : ReplyMessageContext) (file_ref_host : PepperFileRefHost)
| Query (reply : ReplyMessageContext)
| ReadDirectoryEntries (reply : ReplyMessageContext)
| GetAbsolutePath (reply : ReplyMessageContext).

(** The virtual functions of [PepperFileRefBackend], implemented elsewhere:
    what [HasPermissions] answers, what each call returns, and the
    accessors. *)
Variable Backend_HasPermissions : Backend -> Z -> Z.
Variable Backend_returns : Backend -> BackendCall -> Z.
Variable Backend_GetFileSystemURLSpec : Backend -> string.
Variable Backend_GetExternalPath : Backend -> string.

(** The constructor for a path inside a file system. *)
Definition new_internal (host : BrowserPpapiHost)
    (instance resource file_system : Z) (path : string)
  : PepperFileRefHost :=
  let this := mkPepperFileRefHost PP_FILESYSTEMTYPE_INVALID None in
  if negb (IsValidInternalPath path) then this
  else
    match GetRenderViewIDsForInstance host instance with
    | None => this
    | Some (render_process_id, unused) =>
        match GetResourceHost host file_system with
        | None => this
        | Some fs_resource_host =>
            match AsPepperFileSystemBrowserHost fs_resource_host with
            | None => this
            | Some fs_host =>
                let this := mkPepperFileRefHost (GetType fs_host) None in
                match fs_type_ this with
                | PP_FILESYSTEMTYPE_LOCALPERSISTENT
                | PP_FILESYSTEMTYPE_LOCALTEMPORARY =>
                    mkPepperFileRefHost
                      (fs_type_ this)
                      (Some (PepperInternalFileRefBackend
                               render_process_id fs_host path))
                | _ => this
                end
            end
        end
    end.

(** The constructor for an external path. *)
Definition new_external (host : BrowserPpapiHost)
    (instance resource : Z) (external_path : string) : PepperFileRefHost :=
  let this := mkPepperFileRefHost PP_FILESYSTEMTYPE_EXTERNAL None in
  if negb (IsValidExternalPath external_path) then this
  else
    match GetRenderViewIDsForInstance host instance with
    | None => this
    | Some (render_process_id, unused) =>
        mkPepperFileRefHost
          (fs_type_ this)
          (Some (PepperExternalFileRefBackend render_process_id
                                              external_path))
    end.

Definition GetFileSystemType (this : PepperFileRefHost) : PP_FileSystemType :=
  fs_type_ this.

Definition GetFileSystemURLSpec (this : PepperFileRefHost) : string :=
  match backend_ this with
  | Some backend => Backend_GetFileSystemURLSpec backend
  | None => EmptyString
  end.

Definition GetExternalPath (this : PepperFileRefHost) : string :=
  match backend_ this with
  | Some backend => Backend_GetExternalPath backend
  | None => EmptyString
  end.

Definition HasPermissions (this : PepperFileRefHost) (permissions : Z) : Z :=
  match backend_ this with
  | Some backend => Backend_HasPermissions backend permissions
  | None => PP_ERROR_FAILED
  end.

(** What a handler gives back: the value it returns and the calls it has
    made on the backend; [None] when it has dereferenced a null [backend_]. *)
Definition Handled : Type := option (Z * list BackendCall).

(** [return backend_->f(...)] *)
Definition call_backend (this : PepperFileRefHost) (call : BackendCall)
  : Handled :=
  match backend_ this with
  | Some backend => Some (Backend_returns backend call, [call])
  | None => None
  end.

Definition OnMakeDirectory (this : PepperFileRefHost)
    (context : HostMessageContext) (make_ancestors : bool) : Handled :=
  let rv := HasPermissions this kCreateFilePermissions in
  if negb (rv =? PP_OK) then Some (rv, [])
  else call_backend this
         (MakeDirectory (MakeReplyMessageContext context) make_ancestors).

Definition OnTouch (this : PepperFileRefHost) (context : HostMessageContext)
    (last_access_time last_modified_time : PP_Time) : Handled :=
  let rv := HasPermissions this kCreateFilePermissions in
  if negb (rv =? PP_OK) then Some (rv, [])
  else call_backend this
         (Touch (MakeReplyMessageContext context)
                last_access_time last_modified_time).

Definition OnDelete (this : PepperFileRefHost) (context : HostMessageContext)
  : Handled :=
  let rv := HasPermissions this kWriteFilePermissions in
  if negb (rv =? PP_OK) then Some (rv, [])
  else call_backend this (Delete (MakeReplyMessageContext context)).

Definition OnRename (host_ : BrowserPpapiHost) (this : PepperFileRefHost)
    (context : HostMessageContext) (new_file_ref : Z) : Handled :=
  let rv :=
    HasPermissions this (Z.lor kReadFilePermissions kWriteFilePermissions) in
  if negb (rv =? PP_OK) then Some (rv, [])
  else
    match GetResourceHost host_ new_file_ref with
    | None => Some (PP_ERROR_BADRESOURCE, [])
    | Some resource_host =>
        match AsPepperFileRefHost resource_host with
        | None => Some (PP_ERROR_BADRESOURCE, [])
        | Some file_ref_host =>
            let rv := HasPermissions file_ref_host kCreateFilePermissions in
            if negb (rv =? PP_OK) then Some (rv, [])
            else call_backend this
                   (Rename (MakeReplyMessageContext context) file_ref_host)
        end
    end.

Definition OnQuery (this : PepperFileRefHost) (context : HostMessageContext)
  : Handled :=
  let rv := HasPermissions this kReadFilePermissions in
  if negb (rv =? PP_OK) then Some (rv, [])
  else call_backend this (Query (MakeReplyMessageContext context)).

Definition OnReadDirectoryEntries (this : PepperFileRefHost)
    (context : HostMessageContext) : Handled :=
  let rv := HasPermissions this kReadFilePermissions in
  if negb (rv =? PP_OK) then Some (rv, [])
  else call_backend this
         (ReadDirectoryEntries (MakeReplyMessageContext context)).

Definition OnGetAbsolutePath (host_ : BrowserPpapiHost)
    (this : PepperFileRefHost) (context : HostMessageContext) : Handled :=
  if negb (HasPermission_PRIVATE host_) then Some (PP_ERROR_NOACCESS, [])
  else call_backend this (GetAbsolutePath (MakeReplyMessageContext context)).

(** Modelled from the spec: the dispatch table.  The macros of
    ppapi/host/dispatch_host_message.h are not among the sources; they route
    a message of one of the listed types, once its parameters are read, to
    its handler, and return what the handler returns.  [OtherMessage] is a
    message of any other type, or one whose parameters cannot be read. *)
Inductive Message : Type :=
| PpapiHostMsg_FileRef_MakeDirectory (make_ancestors : bool)
| PpapiHostMsg_FileRef_Touch (last_access_time last_modified_time : PP_Time)
| PpapiHostMsg_FileRef_Delete
| PpapiHostMsg_FileRef_Rename (new_file_ref : Z)
| PpapiHostMsg_FileRef_Query
| PpapiHostMsg_FileRef_ReadDirectoryEntries
| PpapiHostMsg_FileRef_GetAbsolutePath
| OtherMessage.

(** The handler the table gives a message; none for [OtherMessage]. *)
Definition dispatch (host_ : BrowserPpapiHost) (this : PepperFileRefHost)
    (msg : Message) (context : HostMessageContext) : option Handled :=
  match msg with
  | PpapiHostMsg_FileRef_MakeDirectory make_ancestors =>
      Some (OnMakeDirectory this context make_ancestors)
  | PpapiHostMsg_FileRef_Touch last_access_time last_modified_time =>
      Some (OnTouch this context last_access_time last_modified_time)
  | PpapiHostMsg_FileRef_Delete => Some (OnDelete this context)
  | PpapiHostMsg_FileRef_Rename new_file_ref =>
      Some (OnRename host_ this context new_file_ref)
  | PpapiHostMsg_FileRef_Query => Some (OnQuery this context)
  | PpapiHostMsg_FileRef_ReadDirectoryEntries =>
      Some (OnReadDirectoryEntries this context)
  | PpapiHostMsg_FileRef_GetAbsolutePath =>
      Some (OnGetAbsolutePath host_ this context)
  | OtherMessage => None
  end.

(** [OnResourceMessageReceived] *)
Definition OnResourceMessageReceived (host_ : BrowserPpapiHost)
    (this : PepperFileRefHost) (msg : Message) (context : HostMessageContext)
  : Handled :=
  match backend_ this with
  | None => Some (PP_ERROR_FAILED, [])
  | Some _ =>
      match dispatch host_ this msg context with
      | Some handled => handled
      | None => Some (PP_ERROR_FAILED, [])
      end
  end.

(** The call on the backend that a message asks for. *)
Definition call_of (host_ : BrowserPpapiHost) (msg : Message)
    (context : HostMessageContext) : option BackendCall :=
  let reply := MakeReplyMessageContext context in
  match msg with
  | PpapiHostMsg_FileRef_MakeDirectory make_ancestors =>
      Some (MakeDirectory reply make_ancestors)
  | PpapiHostMsg_FileRef_Touch last_access_time last_modified_time =>
      Some (Touch reply last_access_time last_modified_time)
  | PpapiHostMsg_FileRef_Delete => Some (Delete reply)
  | PpapiHostMsg_FileRef_Rename new_file_ref =>
      match GetResourceHost host_ new_file_ref with
      | Some (FileRefResource file_ref_host) =>
          Some (Rename reply file_ref_host)
      | _ => None
      end
  | PpapiHostMsg_FileRef_Query => Some (Query reply)
  | PpapiHostMsg_FileRef_ReadDirectoryEntries =>
      Some (ReadDirectoryEntries reply)
  | PpapiHostMsg_FileRef_GetAbsolutePath => Some (GetAbsolutePath reply)
  | OtherMessage => None
  end.

(** The permissions a message needs on the file ref it is sent to, as the
    handlers ask for them; [None] for the messages that ask for none. *)
Definition required_permissions (msg : Message) : option Z :=
  match msg with
  | PpapiHostMsg_FileRef_MakeDirectory _ => Some kCreateFilePermissions
  | PpapiHostMsg_FileRef_Touch _ _ => Some kCreateFilePermissions
  | PpapiHostMsg_FileRef_Delete => Some kWriteFilePermissions
  | PpapiHostMsg_FileRef_Rename _ =>
      Some (Z.lor kReadFilePermissions kWriteFilePermissions)
  | PpapiHostMsg_FileRef_Query => Some kReadFilePermissions
  | PpapiHostMsg_FileRef_ReadDirectoryEntries => Some kReadFilePermissions
  | PpapiHostMsg_FileRef_GetAbsolutePath => None
  | OtherMessage => None
  end.

(** *** Construction *)

(** X1.  The constructor for an internal path installs a backend exactly when
    the path is valid, the instance has render view ids, the file system
    resource exists and is a file system host, and its type is local
    persistent or local temporary; the backend is then the internal one,
    built from the render process id, that file system host and the path. *)
Theorem internal_backend_iff (host : BrowserPpapiHost)
    (instance resource file_system : Z) (path : string) (b : Backend) :
  backend_ (new_internal host instance resource file_system path) = Some b <->
  IsValidInternalPath path = true /\
  exists render_process_id unused fs_host,
    GetRenderViewIDsForInstance host instance =
      Some (render_process_id, unused) /\
    GetResourceHost host file_system = Some (FileSystemResource fs_host) /\
    (GetType fs_host = PP_FILESYSTEMTYPE_LOCALPERSISTENT \/
     GetType fs_host = PP_FILESYSTEMTYPE_LOCALTEMPORARY) /\
    b = PepperInternalFileRefBackend render_process_id fs_host path.
Proof.
  unfold new_internal.
  destruct (IsValidInternalPath path); simpl.
  2:{ split; [discriminate | intros (H & _); discriminate]. }
  destruct (GetRenderViewIDsForInstance host instance) as [[pid unused]|].
  2:{ simpl. split; [discriminate | intros (_ & ? & ? & ? & H & _)].
      discriminate. }
  destruct (GetResourceHost host file_system) as [r|].
  2:{ simpl. split; [discriminate | intros (_ & ? & ? & ? & _ & H & _)].
      discriminate. }
  destruct r as [file_ref|fs|]; simpl;
    try (split; [discriminate | intros (_ & ? & ? & ? & _ & H & _)];
         discriminate).
  destruct (GetType fs) eqn:Et; simpl;
    try (split;
         [ discriminate
         | intros (_ & ? & ? & fs' & _ & H & [Ht|Ht] & _);
           injection H as <-; congruence ]).
  - split.
    + intros H. injection H as <-. split; [reflexivity|].
      exists pid, unused, fs. auto.
    + intros (_ & pid' & u' & fs' & Hi & Hr & _ & ->).
      injection Hi as <- <-. now injection Hr as <-.
  - split.
    + intros H. injection H as <-. split; [reflexivity|].
      exists pid, unused, fs. auto.
    + intros (_ & pid' & u' & fs' & Hi & Hr & _ & ->).
      injection Hi as <- <-. now injection Hr as <-.
Qed.

(** X2.  The host built for an internal path reports the type of its file
    system as soon as the file system host is found, also when that type is
    not supported and no backend is installed; it reports the invalid type
    when the construction stops before. *)
Theorem internal_fs_type (host : BrowserPpapiHost)
    (instance resource file_system : Z) (path : string) :
  let this := new_internal host instance resource file_system path in
  (forall render_process_id unused fs_host,
      IsValidInternalPath path = true ->
      GetRenderViewIDsForInstance host instance =
        Some (render_process_id, unused) ->
      GetResourceHost host file_system = Some (FileSystemResource fs_host) ->
      GetFileSystemType this = GetType fs_host /\
      (GetType fs_host <> PP_FILESYSTEMTYPE_LOCALPERSISTENT ->
       GetType fs_host <> PP_FILESYSTEMTYPE_LOCALTEMPORARY ->
       backend_ this = None)) /\
  (IsValidInternalPath path = false \/
   GetRenderViewIDsForInstance host instance = None \/
   GetResourceHost host file_system = None \/
   (exists r, GetResourceHost host file_system = Some r /\
              AsPepperFileSystemBrowserHost r = None) ->
   GetFileSystemType this = PP_FILESYSTEMTYPE_INVALID /\
   backend_ this = None).
Proof.
  cbv zeta. unfold new_internal, GetFileSystemType. split.
  - intros pid unused fs Hv Hi Hr. rewrite Hv, Hi, Hr. simpl.
    destruct (GetType fs) eqn:Et; simpl; split; auto; congruence.
  - intros [Hv|[Hi|[Hr|(r & Hr & Hfs)]]].
    + now rewrite Hv.
    + rewrite Hi. now destruct (IsValidInternalPath path).
    + rewrite Hr. destruct (IsValidInternalPath path); simpl; auto.
      now destruct (GetRenderViewIDsForInstance host instance) as [[? ?]|].
    + rewrite Hr, Hfs. destruct (IsValidInternalPath path); simpl; auto.
      now destruct (GetRenderViewIDsForInstance host instance) as [[? ?]|].
Qed.

(** X3.  The host built for an external path always reports the external
    type; it has a backend exactly when the path is valid and the instance
    has render view ids, and the backend is then the external one for that
    path. *)
Theorem external_host (host : BrowserPpapiHost) (instance resource : Z)
    (external_path : string) (b : Backend) :
  let this := new_external host instance resource external_path in
  GetFileSystemType this = PP_FILESYSTEMTYPE_EXTERNAL /\
  (backend_ this = Some b <->
   IsValidExternalPath external_path = true /\
   exists render_process_id unused,
     GetRenderViewIDsForInstance host instance =
       Some (render_process_id, unused) /\
     b = PepperExternalFileRefBackend render_process_id external_path).
Proof.
  cbv zeta. unfold new_external, GetFileSystemType.
  destruct (IsValidExternalPath external_path); simpl.
  2:{ split; [reflexivity|].
      split; [discriminate | intros (H & _); discriminate]. }
  destruct (GetRenderViewIDsForInstance host instance) as [[pid unused]|];
    simpl; (split; [reflexivity|]).
  - split.
    + intros H. injection H as <-. split; [reflexivity|].
      exists pid, unused. auto.
    + intros (_ & pid' & u' & Hi & ->). now injection Hi as <- <-.
  - split; [discriminate | intros (_ & ? & ? & H & _); discriminate].
Qed.

(** *** Messages *)

(** X4.  A file ref whose construction was refused answers every message
    with PP_ERROR_FAILED and calls no backend; it has no permissions, no URL
    and no external path. *)
Theorem refused_host_is_inert (host : BrowserPpapiHost)
    (instance resource file_system : Z) (path : string) :
  IsValidInternalPath path = false \/
  GetRenderViewIDsForInstance host instance = None \/
  GetResourceHost host file_system = None \/
  (exists r, GetResourceHost host file_system = Some r /\
             AsPepperFileSystemBrowserHost r = None) \/
  (exists fs_host,
      GetResourceHost host file_system = Some (FileSystemResource fs_host) /\
      GetType fs_host <> PP_FILESYSTEMTYPE_LOCALPERSISTENT /\
      GetType fs_host <> PP_FILESYSTEMTYPE_LOCALTEMPORARY) ->
  let this := new_internal host instance resource file_system path in
  (forall msg context,
      OnResourceMessageReceived host this msg context =
      Some (PP_ERROR_FAILED, [])) /\
  (forall permissions, HasPermissions this permissions = PP_ERROR_FAILED) /\
  GetFileSystemURLSpec this = EmptyString /\
  GetExternalPath this = EmptyString.
Proof.
  intros H. cbv zeta.
  assert (Hb : backend_ (new_internal host instance resource file_system path)
               = None).
  { unfold new_internal.
    destruct (IsValidInternalPath path); [simpl|reflexivity].
    destruct (GetRenderViewIDsForInstance host instance) as [[pid unused]|];
      [|reflexivity].
    destruct (GetResourceHost host file_system) as [[file_ref|fs|]|];
      try reflexivity.
    simpl.
    destruct H as [H|[H|[H|[(r & H & Hfs)|(fs' & H & H1 & H2)]]]];
      try discriminate.
    - injection H as <-. discriminate.
    - injection H as <-. destruct (GetType fs); try reflexivity;
        contradiction. }
  unfold OnResourceMessageReceived, HasPermissions, GetFileSystemURLSpec,
    GetExternalPath. rewrite Hb. auto.
Qed.

(** X5.  [OnResourceMessageReceived] never dereferences a null backend,
    whatever the host, the message and the answers of the backend. *)
Theorem dispatcher_never_dereferences_null (host : BrowserPpapiHost)
    (this : PepperFileRefHost) (msg : Message)
    (context : HostMessageContext) :
  exists rv calls,
    OnResourceMessageReceived host this msg context = Some (rv, calls).
Proof.
  unfold OnResourceMessageReceived.
  destruct (backend_ this) as [b|] eqn:Eb; [|eauto].
  destruct msg; simpl;
    unfold OnMakeDirectory, OnTouch, OnDelete, OnRename, OnQuery,
      OnReadDirectoryEntries, OnGetAbsolutePath, call_backend;
    rewrite ?Eb; eauto;
    repeat match goal with
           | |- context [if ?c then _ else _] => destruct c
           | |- context [match ?x with _ => _ end] => destruct x
           end; eauto.
Qed.

(** X6.  Called on a host without backend, the handlers that ask for file
    permissions return PP_ERROR_FAILED before they reach the backend, given
    that this code is not PP_OK; [OnGetAbsolutePath] asks for none and, in a
    process with the private permission, dereferences the null backend: it
    relies on the test the dispatcher makes. *)
Theorem handlers_without_backend (host : BrowserPpapiHost)
    (this : PepperFileRefHost) (context : HostMessageContext) :
  PP_ERROR_FAILED <> PP_OK ->
  backend_ this = None ->
  (forall make_ancestors,
      OnMakeDirectory this context make_ancestors =
      Some (PP_ERROR_FAILED, [])) /\
  (forall t1 t2, OnTouch this context t1 t2 = Some (PP_ERROR_FAILED, [])) /\
  OnDelete this context = Some (PP_ERROR_FAILED, []) /\
  (forall new_file_ref,
      OnRename host this context new_file_ref = Some (PP_ERROR_FAILED, [])) /\
  OnQuery this context = Some (PP_ERROR_FAILED, []) /\
  OnReadDirectoryEntries this context = Some (PP_ERROR_FAILED, []) /\
  (HasPermission_PRIVATE host = true ->
   OnGetAbsolutePath host this context = None) /\
  (HasPermission_PRIVATE host = false ->
   OnGetAbsolutePath host this context = Some (PP_ERROR_NOACCESS, [])).
Proof.
  intros Hne Hb. apply Z.eqb_neq in Hne.
  unfold OnMakeDirectory, OnTouch, OnDelete, OnRename, OnQuery,
    OnReadDirectoryEntries, OnGetAbsolutePath, call_backend, HasPermissions.
  rewrite Hb, Hne. simpl. repeat split; intros; try reflexivity.
  - now rewrite H.
  - now rewrite H.
Qed.

(** X7.  A call reaches the backend only when it is authorised: if a message
    makes a call on the backend, it makes this one call, the call is the one
    the message asks for, the value returned is the backend's, the backend
    has granted the permissions the message needs on this file ref, a rename
    has also been granted the create permission on its target, and an
    absolute path is only asked for in a process with the private
    permission. *)
Theorem backend_call_is_authorised (host : BrowserPpapiHost)
    (this : PepperFileRefHost) (msg : Message)
    (context : HostMessageContext) (rv : Z) (calls : list BackendCall)
    (call : BackendCall) :
  OnResourceMessageReceived host this msg context = Some (rv, calls) ->
  In call calls ->
  exists backend,
    backend_ this = Some backend /\
    calls = [call] /\
    call_of host msg context = Some call /\
    rv = Backend_returns backend call /\
    (forall permissions,
        required_permissions msg = Some permissions ->
        Backend_HasPermissions backend permissions = PP_OK) /\
    (forall reply target,
        call = Rename reply target ->
        HasPermissions target kCreateFilePermissions = PP_OK) /\
    (msg = PpapiHostMsg_FileRef_GetAbsolutePath ->
     HasPermission_PRIVATE host = true).
Proof.
  unfold OnResourceMessageReceived.
  destruct (backend_ this) as [b|] eqn:Eb.
  2:{ intros H. injection H as <- <-. contradiction. }
  intros H Hin. exists b. split; [reflexivity|].
  destruct msg; simpl in H;
    unfold OnMakeDirectory, OnTouch, OnDelete, OnRename, OnQuery,
      OnReadDirectoryEntries, OnGetAbsolutePath, call_backend,
      HasPermissions in H;
    rewrite ?Eb in H;
    repeat (match type of H with
            | context [Z.eqb ?a ?b] => destruct (Z.eqb_spec a b)
            | context [HasPermission_PRIVATE host] =>
                destruct (HasPermission_PRIVATE host) eqn:Epriv
            | context [GetResourceHost host ?r] =>
                destruct (GetResourceHost host r) as [[?| |]|] eqn:Er
            end; simpl in H);
    injection H as <- <-; try contradiction;
    destruct Hin as [<-|[]]; simpl; rewrite ?Er;
    repeat split; try reflexivity; try discriminate;
    try (intros permissions Hp; injection Hp as <-; assumption);
    try (intros reply target Hc; discriminate).
  intros reply target Hc. injection Hc as _ <-.
  unfold HasPermissions. assumption.
Qed.

(** X8.  When the backend refuses the permissions a message needs, the
    message is answered with the very code the backend gave and nothing is
    called on the backend. *)
Theorem refused_permission_is_returned (host : BrowserPpapiHost)
    (this : PepperFileRefHost) (backend : Backend) (msg : Message)
    (context : HostMessageContext) (permissions : Z) :
  backend_ this = Some backend ->
  required_permissions msg = Some permissions ->
  Backend_HasPermissions backend permissions <> PP_OK ->
  OnResourceMessageReceived host this msg context =
  Some (Backend_HasPermissions backend permissions, []).
Proof.
  intros Hb Hp Hne. apply Z.eqb_neq in Hne.
  unfold OnResourceMessageReceived. rewrite Hb.
  destruct msg; simpl in *; try discriminate; injection Hp as <-;
    unfold OnMakeDirectory, OnTouch, OnDelete, OnRename, OnQuery,
      OnReadDirectoryEntries, HasPermissions;
    now rewrite Hb, Hne.
Qed.

(** X9.  A rename whose source has the read and write permissions is
    answered PP_ERROR_BADRESOURCE when the new file ref is no resource or no
    file ref, with the code the target gives when the target refuses the
    create permission (PP_ERROR_FAILED for a target without backend), and is
    handed to the backend of the source otherwise. *)
Theorem rename_outcomes (host : BrowserPpapiHost) (this : PepperFileRefHost)
    (backend : Backend) (context : HostMessageContext) (new_file_ref : Z) :
  backend_ this = Some backend ->
  Backend_HasPermissions backend
    (Z.lor kReadFilePermissions kWriteFilePermissions) = PP_OK ->
  let answer :=
    OnResourceMessageReceived host this
      (PpapiHostMsg_FileRef_Rename new_file_ref) context in
  (GetResourceHost host new_file_ref = None ->
   answer = Some (PP_ERROR_BADRESOURCE, [])) /\
  (forall r,
      GetResourceHost host new_file_ref = Some r ->
      AsPepperFileRefHost r = None ->
      answer = Some (PP_ERROR_BADRESOURCE, [])) /\
  (forall target,
      GetResourceHost host new_file_ref = Some (FileRefResource target) ->
      (HasPermissions target kCreateFilePermissions <> PP_OK ->
       answer = Some (HasPermissions target kCreateFilePermissions, [])) /\
      (backend_ target = None -> PP_ERROR_FAILED <> PP_OK ->
       answer = Some (PP_ERROR_FAILED, [])) /\
      (HasPermissions target kCreateFilePermissions = PP_OK ->
       answer =
       Some (Backend_returns backend
               (Rename (MakeReplyMessageContext context) target),
             [Rename (MakeReplyMessageContext context) target]))).
Proof.
  intros Hb Hsrc. cbv zeta.
  unfold OnResourceMessageReceived. rewrite Hb. simpl.
  assert (Hs : HasPermissions this
                 (Z.lor kReadFilePermissions kWriteFilePermissions) = PP_OK)
    by (unfold HasPermissions; now rewrite Hb).
  unfold OnRename, call_backend. rewrite Hs, Hb, Z.eqb_refl. simpl.
  split; [|split].
  - intros H. now rewrite H.
  - intros r H Hr. now rewrite H, Hr.
  - intros target H. rewrite H. simpl. split; [|split].
    + intros Hne. apply Z.eqb_neq in Hne. now rewrite Hne.
    + intros Ht Hne. unfold HasPermissions. rewrite Ht.
      apply Z.eqb_neq in Hne. now rewrite Hne.
    + intros Hok. now rewrite Hok, Z.eqb_refl.
Qed.

(** X10.  An absolute path is gated by the private permission alone: in a
    process that has it, the message is handed to the backend even when the
    backend refuses every file permission; in a process that lacks it, the
    answer is PP_ERROR_NOACCESS even when the backend grants them all. *)
Theorem absolute_path_needs_private_only (host : BrowserPpapiHost)
    (this : PepperFileRefHost) (backend : Backend)
    (context : HostMessageContext) :
  backend_ this = Some backend ->
  let answer :=
    OnResourceMessageReceived host this
      PpapiHostMsg_FileRef_GetAbsolutePath context in
  let call := GetAbsolutePath (MakeReplyMessageContext context) in
  ((forall permissions, Backend_HasPermissions backend permissions <> PP_OK) ->
   HasPermission_PRIVATE host = true ->
   answer = Some (Backend_returns backend call, [call])) /\
  ((forall permissions, Backend_HasPermissions backend permissions = PP_OK) ->
   HasPermission_PRIVATE host = false ->
   answer = Some (PP_ERROR_NOACCESS, [])).
Proof.
  intros Hb. cbv zeta. unfold OnResourceMessageReceived. rewrite Hb. simpl.
  unfold OnGetAbsolutePath, call_backend. rewrite Hb.
  split; intros _ Hp; now rewrite Hp.
Qed.

End Host.

End PepperFileRef.

(* ================================================================== *)
(** ** AutoLock                                                        *)
(* ================================================================== *)

Module AutoLockScope.

Section Locks.

(** The [pthread_mutex_t] objects. *)
Variable Mutex : Type.

(** The calls made on the pthread library. *)
Inductive PthreadCall : Type :=
| pthread_mutex_lock (mutex : Mutex)
| pthread_mutex_unlock (mutex : Mutex).

(** The member [lock_], a [pthread_mutex_t*]; [None] is NULL. *)
Record AutoLock : Type := mkAutoLock {
  lock_ : option Mutex
}.

(** The constructor, given the mutex that [lock.mutex()] points to: the
    object built, and the calls made. *)
Definition AutoLock_new (mutex : Mutex) : AutoLock * list PthreadCall :=
  (mkAutoLock (Some mutex), [pthread_mutex_lock mutex]).

(** [if (lock_) pthread_mutex_unlock(lock_);] *)
Definition unlock_if_set (this : AutoLock) : list PthreadCall :=
  match lock_ this with
  | Some mutex => [pthread_mutex_unlock mutex]
  | None => []
  end.

(** The destructor: the calls made. *)
Definition AutoLock_delete (this : AutoLock) : list PthreadCall :=
  unlock_if_set this.

(** [Unlock()]: the object afterwards, and the calls made. *)
Definition Unlock (this : AutoLock) : AutoLock * list PthreadCall :=
  (mkAutoLock None, unlock_if_set this).

(** [n] calls of [Unlock()] in a row. *)
Fixpoint Unlocks (n : nat) (this : AutoLock) : AutoLock * list PthreadCall :=
  match n with
  | O => (this, [])
  | S n' =>
      let (this1, calls1) := Unlock this in
      let (this2, calls2) := Unlocks n' this1 in
      (this2, (calls1 ++ calls2)%list)
  end.

(** The life of an [AutoLock] on [mutex] during which [Unlock()] is called
    [n] times: the calls made from the constructor to the destructor. *)
Definition scope (mutex : Mutex) (n : nat) : list PthreadCall :=
  let (this0, calls0) := AutoLock_new mutex in
  let (this1, calls1) := Unlocks n this0 in
  (calls0 ++ calls1 ++ AutoLock_delete this1)%list.

Lemma Unlocks_released (n : nat) :
  Unlocks n (mkAutoLock None) = (mkAutoLock None, []).
Proof. induction n as [|n IH]; simpl; [reflexivity|]. now rewrite IH. Qed.

(** X11.  However often [Unlock()] is called during the life of an
    [AutoLock], the mutex is locked once, by the constructor, and unlocked
    once: by the first [Unlock()], or by the destructor when there was
    none.  Once [Unlock()] has been called, neither another [Unlock()] nor
    the destructor makes any call. *)
Theorem scope_unlocks_once (mutex : Mutex) (n : nat) :
  scope mutex n = [pthread_mutex_lock mutex; pthread_mutex_unlock mutex] /\
  (forall this : AutoLock,
      Unlock (fst (Unlock this)) = (fst (Unlock this), []) /\
      AutoLock_delete (fst (Unlock this)) = []).
Proof.
  split.
  - unfold scope. simpl. destruct n as [|n]; simpl; [reflexivity|].
    now rewrite Unlocks_released.
  - intros this. split; reflexivity.
Qed.

End Locks.

End AutoLockScope.

(* ================================================================== *)
(** ** The provider: what is in flight, and how often it is dispatched  *)
(* ================================================================== *)

Section ProviderAccounting.

Context {Callback World : Type}.
Variable Run : Callback -> bool -> World -> World * list Callback.

Local Abbreviation Provider := (Provider Callback World).
Local Abbreviation Action := (Action Callback).

(** The replies among the actions of an execution. *)
Definition is_reply (a : Action) : bool :=
  match a with
  | ReplyOnQueryCompleted _ => true
  | _ => false
  end.

Definition replies_run (acts : list Action) : nat :=
  List.length (filter is_reply acts).

(** 1 when the flag is set, 0 when it is clear. *)
Definition in_progress (p : Provider) : nat :=
  if is_waiting_for_completion_ p then 1%nat else 0%nat.

(** Every task posted was prepared, and every query run was posted. *)
Definition accounted (p : Provider) : Prop :=
  prepares (trace p) = posts (trace p) /\
  (List.length (queries (trace p)) + worker_pool_ p <= posts (trace p))%nat.

Lemma accounted_exec (fuel : nat) (a : Action) (p p' : Provider) :
  consistent p -> accounted p -> exec Run fuel a p = Some p' ->
  accounted p' /\
  (posts (trace p') + in_progress p =
   posts (trace p) + (if is_reply a then 1 else 0) + in_progress p')%nat.
Proof.
  intros Hc (Hprep & Hq) H. unfold accounted, in_progress.
  destruct a as [cb|b| |]; simpl in H.
  - injection H as <-.
    destruct (is_waiting_for_completion_ p) eqn:E.
    + rewrite StartQueryInfo_waiting by assumption. simpl.
      rewrite posts_app, prepares_app, queries_app. simpl.
      rewrite app_nil_r. unfold posts, prepares in *. simpl. lia.
    + rewrite StartQueryInfo_idle by assumption. simpl.
      rewrite posts_app, prepares_app, queries_app. simpl.
      rewrite app_nil_r. unfold posts, prepares in *. simpl. lia.
  - destruct (worker_pool_ p) as [|n] eqn:En; [discriminate|].
    injection H as <-. simpl.
    rewrite posts_app, prepares_app, queries_app, !length_app. simpl.
    unfold posts, prepares in *. simpl.
    destruct (is_waiting_for_completion_ p); lia.
  - destruct (worker_pool_ p) as [|n] eqn:En; [discriminate|].
    injection H as <-. simpl.
    destruct (is_waiting_for_completion_ p); lia.
  - destruct (ui_replies p) as [|b rest] eqn:Er; [discriminate|].
    assert (Hw : is_waiting_for_completion_ p = true).
    { destruct (is_waiting_for_completion_ p) eqn:E; [reflexivity|].
      destruct (idle_when_clear Hc E) as (_ & _ & _ & Hn). congruence. }
    apply OnQueryCompleted_spec in H; [|exact Hw].
    destruct H as (l & reqs & -> & _ & _ & Hp & Hpr & Hqs). simpl in *.
    rewrite posts_app, prepares_app, queries_app, Hp, Hpr, Hqs, Hw.
    rewrite app_nil_r. lia.
Qed.

Lemma accounted_run (fuel : nat) (acts : list Action) :
  forall p p' : Provider,
    consistent p -> accounted p -> run Run fuel acts p = Some p' ->
    accounted p' /\
    (posts (trace p') + in_progress p =
     posts (trace p) + replies_run acts + in_progress p')%nat.
Proof.
  induction acts as [|a acts IH]; intros p p' Hc Ha H; simpl in H.
  - injection H as <-. split; [assumption|]. unfold replies_run. simpl. lia.
  - destruct (exec Run fuel a p) as [p1|] eqn:E; [|discriminate].
    destruct (@accounted_exec fuel a p p1 Hc Ha E) as (Ha1 & Hn1).
    pose proof (@consistent_exec _ _ Run fuel a p p1 Hc E) as Hc1.
    destruct (IH p1 p' Hc1 Ha1 H) as (Ha' & Hn').
    split; [assumption|].
    unfold replies_run in *. simpl. destruct (is_reply a); simpl; lia.
Qed.

(** *** The order of preparation and dispatch *)

Local Open Scope list_scope.

(** Every [EvPostTask] of the trace [l] comes right after an [EvPrepare];
    [prepared] tells whether the event before [l] was one. *)
Fixpoint posts_prepared (prepared : bool) (l : list (Event Callback))
  : bool :=
  match l with
  | [] => true
  | EvPostTask :: l' => prepared && posts_prepared false l'
  | EvPrepare :: l' => posts_prepared true l'
  | _ :: l' => posts_prepared false l'
  end.

(** Every [EvPrepare] of the trace [l] is followed at once by an
    [EvPostTask]. *)
Fixpoint prepares_posted (l : list (Event Callback)) : bool :=
  match l with
  | [] => true
  | EvPrepare :: l' =>
      match l' with
      | EvPostTask :: _ => prepares_posted l'
      | _ => false
      end
  | _ :: l' => prepares_posted l'
  end.

Definition in_step (l : list (Event Callback)) : Prop :=
  posts_prepared false l = true /\ prepares_posted l = true.

Lemma posts_prepared_weaken (b : bool) (l : list (Event Callback)) :
  posts_prepared false l = true -> posts_prepared b l = true.
Proof.
  destruct l as [|e l]; [reflexivity|].
  destruct e; simpl; auto. discriminate.
Qed.

Lemma posts_prepared_app (c : list (Event Callback)) :
  posts_prepared false c = true ->
  forall (l : list (Event Callback)) (b : bool),
    posts_prepared b l = true -> posts_prepared b (l ++ c) = true.
Proof.
  intros Hc. induction l as [|e l IH]; intros b Hl.
  - now apply posts_prepared_weaken.
  - destruct e; simpl in *; auto.
    apply andb_true_iff in Hl. destruct Hl as (-> & Hl). simpl. auto.
Qed.

Lemma prepares_posted_app (c : list (Event Callback)) :
  prepares_posted c = true ->
  forall l : list (Event Callback),
    prepares_posted l = true -> prepares_posted (l ++ c) = true.
Proof.
  intros Hc. induction l as [|e l IH]; intros Hl; [exact Hc|].
  destruct e; simpl in *; auto.
  destruct l as [|e' l']; [discriminate|].
  destruct e'; try discriminate. simpl app. auto.
Qed.

Lemma in_step_app (l c : list (Event Callback)) :
  in_step l -> in_step c -> in_step (l ++ c).
Proof.
  intros (A & B) (C & D). split.
  - now apply posts_prepared_app.
  - now apply prepares_posted_app.
Qed.

(** A stretch of trace without preparation and dispatch is in step. *)
Lemma undispatched_in_step (l : list (Event Callback)) :
  posts l = 0%nat -> prepares l = 0%nat -> in_step l.
Proof.
  unfold posts, prepares, in_step.
  induction l as [|e l IH]; intros Hp Hr; [split; reflexivity|].
  destruct e; simpl in *; try discriminate;
    destruct (IH Hp Hr) as (A & B); split; auto.
Qed.

Lemma posts_prepared_split (l1 l2 : list (Event Callback)) :
  forall b : bool,
    posts_prepared b (l1 ++ EvPostTask :: l2) = true ->
    (l1 = [] /\ b = true) \/ exists l0, l1 = l0 ++ [EvPrepare].
Proof.
  induction l1 as [|e l1 IH]; intros b H.
  - left. simpl in H. apply andb_true_iff in H. tauto.
  - right.
    assert (Hrest : exists b',
               posts_prepared b' (l1 ++ EvPostTask :: l2) = true /\
               (b' = true -> e = EvPrepare)).
    { destruct e; simpl in H.
      - exists false. split; [assumption | discriminate].
      - exists true. auto.
      - apply andb_true_iff in H. exists false.
        split; [tauto | discriminate].
      - exists false. split; [assumption | discriminate].
      - exists false. split; [assumption | discriminate]. }
    destruct Hrest as (b' & Hrest & He).
    destruct (IH _ Hrest) as [(-> & Hb)|(l0 & ->)].
    + exists []. simpl. now rewrite (He Hb).
    + now exists (e :: l0).
Qed.

Lemma prepares_posted_split (l1 l2 : list (Event Callback)) :
  prepares_posted (l1 ++ EvPrepare :: l2) = true ->
  exists l3, l2 = EvPostTask :: l3.
Proof.
  induction l1 as [|e l1 IH]; intros H.
  - simpl in H. destruct l2 as [|e' l2]; [discriminate|].
    destruct e'; try discriminate. now exists l2.
  - apply IH. destruct e; simpl in H; auto.
    destruct (l1 ++ EvPrepare :: l2) as [|e' l']; [discriminate|].
    destruct e'; try discriminate. exact H.
Qed.

Lemma in_step_exec (fuel : nat) (a : Action) (p p' : Provider) :
  consistent p -> in_step (trace p) -> exec Run fuel a p = Some p' ->
  in_step (trace p').
Proof.
  intros Hc Hs H. destruct a as [cb|b| |]; simpl in H.
  - injection H as <-.
    destruct (is_waiting_for_completion_ p) eqn:E.
    + rewrite StartQueryInfo_waiting by assumption. simpl.
      apply in_step_app; [assumption | split; reflexivity].
    + rewrite StartQueryInfo_idle by assumption. simpl.
      apply in_step_app; [assumption | split; reflexivity].
  - destruct (worker_pool_ p) as [|n] eqn:En; [discriminate|].
    injection H as <-. simpl.
    apply in_step_app; [assumption | split; reflexivity].
  - destruct (worker_pool_ p) as [|n] eqn:En; [discriminate|].
    now injection H as <-.
  - destruct (ui_replies p) as [|b rest] eqn:Er; [discriminate|].
    assert (Hw : is_waiting_for_completion_ p = true).
    { destruct (is_waiting_for_completion_ p) eqn:E; [reflexivity|].
      destruct (idle_when_clear Hc E) as (_ & _ & _ & Hn). congruence. }
    apply OnQueryCompleted_spec in H; [|exact Hw].
    destruct H as (l & reqs & -> & _ & _ & Hp & Hpr & Hqs). simpl in *.
    apply in_step_app; [assumption|]. now apply undispatched_in_step.
Qed.

Lemma in_step_run (fuel : nat) (acts : list Action) :
  forall p p' : Provider,
    consistent p -> in_step (trace p) -> run Run fuel acts p = Some p' ->
    in_step (trace p').
Proof.
  induction acts as [|a acts IH]; intros p p' Hc Hs H; simpl in H.
  - now injection H as <-.
  - destruct (exec Run fuel a p) as [p1|] eqn:E; [|discriminate].
    pose proof (@consistent_exec _ _ Run fuel a p p1 Hc E) as Hc1.
    pose proof (@in_step_exec fuel a p p1 Hc Hs E) as Hs1.
    exact (IH p1 p' Hc1 Hs1 H).
Qed.

(** X12.  In every reachable state at most one query is in flight: the
    tasks in the pool and the replies pending number at most one together,
    and none when the flag is clear.  Every task was posted right after its
    preparation step [PrepareQueryOnUIThread], every preparation step was
    followed at once by the posting of its task, and no query has run that
    was not posted. *)
Theorem one_query_in_flight (p : Provider) :
  reachable Run p ->
  (worker_pool_ p + List.length (ui_replies p) <= 1)%nat /\
  (is_waiting_for_completion_ p = false ->
   worker_pool_ p = 0%nat /\ ui_replies p = []) /\
  prepares (trace p) = posts (trace p) /\
  (List.length (queries (trace p)) + worker_pool_ p <= posts (trace p))%nat /\
  (forall l1 l2 : list (Event Callback),
      trace p = (l1 ++ EvPostTask :: l2)%list ->
      exists l0, l1 = (l0 ++ [EvPrepare])%list) /\
  (forall l1 l2 : list (Event Callback),
      trace p = (l1 ++ EvPrepare :: l2)%list ->
      exists l3, l2 = EvPostTask :: l3).
Proof.
  intros Hreach. pose proof (reachable_consistent Hreach) as Hc.
  destruct Hreach as (w & fuel & acts & H).
  destruct (@accounted_run fuel acts (SystemInfoProvider Callback w) p)
    as ((Hprep & Hq) & _); try assumption.
  { apply consistent_new. }
  { split; simpl; [reflexivity | lia]. }
  destruct (@in_step_run fuel acts (SystemInfoProvider Callback w) p)
    as (Hpp & Hpo); try assumption.
  { apply consistent_new. }
  { split; reflexivity. }
  split; [|split; [|split; [|split; [|split]]]]; try assumption.
  - destruct (is_waiting_for_completion_ p) eqn:E.
    + now apply (one_in_flight Hc).
    + destruct (idle_when_clear Hc E) as (_ & _ & -> & ->). simpl. lia.
  - intros E. destruct (idle_when_clear Hc E) as (_ & _ & Hp & Hr). auto.
  - intros l1 l2 Ht. rewrite Ht in Hpp.
    destruct (posts_prepared_split _ _ _ Hpp) as [(_ & Hb)|Hl0];
      [discriminate | exact Hl0].
  - intros l1 l2 Ht. rewrite Ht in Hpo.
    exact (prepares_posted_split _ _ Hpo).
Qed.

(** X13.  However many requests an execution makes, the number of query
    tasks it posts is the number of replies it has run, plus one while the
    flag is set: one dispatch per drain cycle, whatever the number of
    calls to [StartQueryInfo]. *)
Theorem one_dispatch_per_cycle (w : World) (fuel : nat) (acts : list Action)
    (p : Provider) :
  run Run fuel acts (SystemInfoProvider Callback w) = Some p ->
  posts (trace p) = (replies_run acts + in_progress p)%nat.
Proof.
  intros H.
  destruct (@accounted_run fuel acts (SystemInfoProvider Callback w) p)
    as (_ & Hn); try assumption.
  { apply consistent_new. }
  { split; simpl; [reflexivity | lia]. }
  unfold in_progress in *. simpl in Hn. lia.
Qed.

End ProviderAccounting.

Lemma one_query_in_flight_witness :
  reachable countdown requested /\
  (worker_pool_ requested + List.length (ui_replies requested) <= 1)%nat /\
  exists l0, [EvStartQueryInfo 2%nat; EvPrepare] = (l0 ++ [EvPrepare])%list.
Proof.
  pose proof (one_query_in_flight requested_reachable) as H.
  exact (conj requested_reachable
           (conj (proj1 H)
                 (proj1 (proj2 (proj2 (proj2 (proj2 H))))
                    [EvStartQueryInfo 2%nat; EvPrepare] [] eq_refl))).
Defined.

Lemma one_dispatch_per_cycle_witness :
  posts (trace replied) =
  (replies_run [CallStartQueryInfo 2; CallStartQueryInfo 0;
                PoolRunsQueryInfo nat true; ReplyOnQueryCompleted nat]
   + in_progress replied)%nat.
Proof.
  exact (@one_dispatch_per_cycle nat nat countdown 0%nat 4%nat _ replied
           countdown_cycle).
Defined.

(* ================================================================== *)
(** ** The shared instance under any sequence of calls                 *)
(* ================================================================== *)

Section HolderSequences.

Variable Instance : Type.
Variable new_I : nat -> Instance.

Local Abbreviation Holder := (Holder Instance).

(** The calls made on the holder. *)
Inductive HolderCall : Type :=
| CallGetInstance
| CallInitializeForTesting (provider : scoped_refptr Instance).

(** [InitializeForTesting] as built.  In a build with DCHECKs it is
    [Singleton.InitializeForTesting], which stops on the null pointer; in a
    build without, [DCHECK] expands to nothing and the assignment
    [provider_.Get() = provider] is all that is left. *)
Definition InitializeForTesting_built (dchecks : bool)
    (provider : scoped_refptr Instance) (h : Holder) : option Holder :=
  if dchecks then InitializeForTesting provider h
  else Some (mkHolder provider (constructions h)).

(** The calls [calls] made in order: the pointers that the calls of
    [GetInstance] return, and the holder afterwards; [None] when a DCHECK of
    [InitializeForTesting] fails. *)
Fixpoint perform (dchecks : bool) (calls : list HolderCall) (h : Holder)
  : option (list (scoped_refptr Instance) * Holder) :=
  match calls with
  | [] => Some ([], h)
  | CallGetInstance :: rest =>
      let (r, h1) := GetInstance new_I h in
      match perform dchecks rest h1 with
      | Some (rs, h2) => Some (r :: rs, h2)
      | None => None
      end
  | CallInitializeForTesting provider :: rest =>
      match InitializeForTesting_built dchecks provider h with
      | Some h1 => perform dchecks rest h1
      | None => None
      end
  end.

(** The calls that hand [InitializeForTesting] a null pointer. *)
Definition is_null_install (c : HolderCall) : bool :=
  match c with
  | CallInitializeForTesting None => true
  | _ => false
  end.

Definition nulls (calls : list HolderCall) : nat :=
  List.length (filter is_null_install calls).

(** With [k] null pointers installed so far, at most [k] objects were built
    when the holder is null, and at most one more when it is not. *)
Definition bounded (k : nat) (h : Holder) : Prop :=
  match provider_ h with
  | None => (constructions h <= k)%nat
  | Some _ => (constructions h <= S k)%nat
  end.

Lemma nulls_none (calls : list HolderCall) :
  ~ In (CallInitializeForTesting None) calls -> nulls calls = 0%nat.
Proof.
  unfold nulls. induction calls as [|c calls IH]; intros Hn; [reflexivity|].
  destruct c as [|[d|]]; simpl.
  - apply IH. intros Hin. apply Hn. now right.
  - apply IH. intros Hin. apply Hn. now right.
  - exfalso. apply Hn. now left.
Qed.

Lemma perform_bounded (dchecks : bool) (calls : list HolderCall) :
  forall (h h' : Holder) (results : list (scoped_refptr Instance)) (k : nat),
    bounded k h ->
    perform dchecks calls h = Some (results, h') ->
    bounded (k + nulls calls) h' /\
    (forall r, In r results ->
       r <> None /\
       ((exists n, (n <= k + nulls calls)%nat /\ r = Some (new_I n)) \/
        r = provider_ h \/
        In (CallInitializeForTesting r) calls)).
Proof.
  induction calls as [|c calls IH]; intros h h' results k Hb H;
    cbn [perform] in H.
  - injection H as <- <-. unfold nulls. simpl. rewrite Nat.add_0_r.
    split; [assumption | contradiction].
  - destruct c as [|provider].
    + unfold GetInstance in H. unfold bounded in Hb.
      destruct (provider_ h) as [i|] eqn:Ep.
      * rewrite Ep in H.
        destruct (perform dchecks calls h) as [[rs h2]|] eqn:E;
          [|discriminate].
        injection H as <- <-.
        assert (Hb' : bounded k h) by (unfold bounded; now rewrite Ep).
        destruct (IH _ _ _ _ Hb' E) as (Hb2 & Hr). rewrite Ep in Hr.
        split; [exact Hb2|].
        intros r [<-|Hin]; [split; [discriminate | auto]|].
        destruct (Hr r Hin) as (Hn & [Ha|[Hc|Hc]]); split; auto.
        right. right. now right.
      * simpl in H.
        destruct (perform dchecks calls _) as [[rs h2]|] eqn:E;
          [|discriminate].
        injection H as <- <-.
        assert (Hb' : bounded k (mkHolder (Some (new_I (constructions h)))
                                          (S (constructions h)))).
        { unfold bounded. simpl. lia. }
        destruct (IH _ _ _ _ Hb' E) as (Hb2 & Hr). simpl in Hr.
        split; [exact Hb2|].
        assert (Hfirst : exists n, (n <= k + nulls (CallGetInstance :: calls))%nat
                                   /\ Some (new_I (constructions h))
                                      = Some (new_I n)).
        { exists (constructions h). split; [lia | reflexivity]. }
        intros r [<-|Hin]; [split; [discriminate | now left]|].
        destruct (Hr r Hin) as (Hn & [Ha|[->|Hc]]); split; auto.
        right. right. now right.
    + assert (Hstep : exists k',
                 bounded k' (mkHolder provider (constructions h)) /\
                 (k' + nulls calls
                  = k + nulls (CallInitializeForTesting provider :: calls))%nat
                 /\ perform dchecks calls
                      (mkHolder provider (constructions h))
                    = Some (results, h')).
      { unfold bounded in *. unfold nulls.
        destruct provider as [d|]; destruct dchecks; simpl in *;
          try discriminate.
        - exists k. destruct (provider_ h); repeat split; auto; lia.
        - exists k. destruct (provider_ h); repeat split; auto; lia.
        - exists (S k). destruct (provider_ h); repeat split; auto; lia. }
      destruct Hstep as (k' & Hb' & Hk & E).
      destruct (IH _ _ _ _ Hb' E) as (Hb2 & Hr). simpl in Hr.
      rewrite Hk in *. split; [exact Hb2|].
      intros r Hin. destruct (Hr r Hin) as (Hn & [Ha|[->|Hc]]); split; auto.
      * right. right. now left.
      * right. right. now right.
Qed.

(** While no null pointer is installed, nothing is built once the holder
    is set. *)
Lemma perform_keeps (dchecks : bool) (calls : list HolderCall) :
  ~ In (CallInitializeForTesting None) calls ->
  forall (h h' : Holder) (results : list (scoped_refptr Instance)),
    provider_ h <> None ->
    perform dchecks calls h = Some (results, h') ->
    constructions h' = constructions h.
Proof.
  induction calls as [|c calls IH]; intros Hn h h' results Hp H;
    cbn [perform] in H.
  - now injection H as _ <-.
  - assert (Hn' : ~ In (CallInitializeForTesting None) calls).
    { intros Hin. apply Hn. now right. }
    destruct c as [|[d|]].
    + unfold GetInstance in H.
      destruct (provider_ h) as [i|] eqn:Ep; [|contradiction].
      rewrite Ep in H.
      destruct (perform dchecks calls h) as [[rs h2]|] eqn:E; [|discriminate].
      injection H as _ <-.
      eapply IH; [exact Hn' | | exact E]. rewrite Ep. discriminate.
    + assert (E : perform dchecks calls (mkHolder (Some d) (constructions h))
                  = Some (results, h')).
      { destruct dchecks; exact H. }
      apply (IH Hn') in E; [exact E | discriminate].
    + exfalso. apply Hn. now left.
Qed.

Lemma perform_release_total (calls : list HolderCall) :
  forall h : Holder,
    exists results h', perform false calls h = Some (results, h').
Proof.
  induction calls as [|c calls IH]; intros h; cbn [perform]; [eauto|].
  destruct c as [|provider].
  - destruct (GetInstance new_I h) as [r h1].
    destruct (IH h1) as (rs & h2 & E). rewrite E. eauto.
  - simpl. apply IH.
Qed.

Lemma perform_agree (dchecks : bool) (calls : list HolderCall) :
  ~ In (CallInitializeForTesting None) calls ->
  forall h : Holder, perform dchecks calls h = perform false calls h.
Proof.
  induction calls as [|c calls IH]; intros Hn h; cbn [perform];
    [reflexivity|].
  assert (Hn' : ~ In (CallInitializeForTesting None) calls).
  { intros Hin. apply Hn. now right. }
  destruct c as [|[d|]].
  - destruct (GetInstance new_I h) as [r h1]. now rewrite (IH Hn').
  - destruct dchecks; simpl; now rewrite ?(IH Hn').
  - exfalso. apply Hn. now left.
Qed.

Lemma perform_dcheck_fails (calls : list HolderCall) :
  forall h : Holder,
    perform true calls h = None <->
    In (CallInitializeForTesting None) calls.
Proof.
  induction calls as [|c calls IH]; intros h; cbn [perform].
  - split; [discriminate | contradiction].
  - destruct c as [|[d|]].
    + destruct (GetInstance new_I h) as [r h1].
      specialize (IH h1).
      destruct (perform true calls h1) as [[rs h2]|]; split.
      * discriminate.
      * intros [Hin|Hin]; [discriminate|]. apply IH in Hin. discriminate.
      * intros _. right. now apply IH.
      * reflexivity.
    + simpl. rewrite IH. split; [now right|].
      intros [Hin|Hin]; [discriminate | assumption].
    + simpl. split; [now left | reflexivity].
Qed.

(** X14.  Take any sequence of [GetInstance] and [InitializeForTesting]
    calls on the fresh holder.  In a build with DCHECKs the sequence stops
    exactly when [InitializeForTesting] is handed a null pointer; in a build
    without it always runs through.  When no call hands over a null pointer,
    the two builds do the same: a provider object is built at most once;
    every [GetInstance] returns a pointer that is not null, which is the
    object built first or a test double installed by one of the calls; and
    when the first call installs a test double, no object is built.  In
    either build the objects built number at most one more than the null
    pointers handed over, and no [GetInstance] returns null.  In a build
    without DCHECKs a null pointer handed over between two calls of
    [GetInstance] makes the second build a second object. *)
Theorem holder_under_any_sequence (dchecks : bool)
    (calls : list HolderCall) :
  (perform true calls (LazyInstance Instance) = None <->
   In (CallInitializeForTesting None) calls) /\
  (exists results h',
      perform false calls (LazyInstance Instance) = Some (results, h')) /\
  (~ In (CallInitializeForTesting None) calls ->
   exists results h',
     perform dchecks calls (LazyInstance Instance) = Some (results, h') /\
     perform (negb dchecks) calls (LazyInstance Instance)
     = Some (results, h') /\
     (constructions h' <= 1)%nat /\
     (forall r, In r results ->
        r <> None /\
        (r = Some (new_I 0) \/ In (CallInitializeForTesting r) calls)) /\
     (forall d rest,
         calls = CallInitializeForTesting d :: rest ->
         constructions h' = 0%nat)) /\
  (forall results h',
      perform dchecks calls (LazyInstance Instance) = Some (results, h') ->
      (constructions h' <= S (nulls calls))%nat /\
      (forall r, In r results ->
         r <> None /\
         ((exists n, (n <= nulls calls)%nat /\ r = Some (new_I n)) \/
          In (CallInitializeForTesting r) calls))) /\
  perform false
          [CallGetInstance; CallInitializeForTesting None; CallGetInstance]
          (LazyInstance Instance)
  = Some ([Some (new_I 0); Some (new_I 1)], mkHolder (Some (new_I 1)) 2).
Proof.
  assert (Hb0 : bounded 0 (LazyInstance Instance)) by (unfold bounded; simpl; lia).
  split; [apply perform_dcheck_fails|].
  split; [apply perform_release_total|].
  split; [|split; [|reflexivity]].
  - intros Hn.
    destruct (perform_release_total calls (LazyInstance Instance))
      as (results & h' & E).
    exists results, h'.
    assert (Ed : forall d, perform d calls (LazyInstance Instance)
                           = Some (results, h')).
    { intros d. now rewrite (@perform_agree d calls Hn). }
    split; [apply Ed|]. split; [apply Ed|].
    destruct (@perform_bounded false calls _ _ _ _ Hb0 E) as (Hb & Hr).
    rewrite (@nulls_none calls Hn) in *. simpl in *.
    split; [|split].
    + unfold bounded in Hb. destruct (provider_ h'); lia.
    + intros r Hin. destruct (Hr r Hin) as (Hnn & [(n & Hle & ->)|[->|Hc]]).
      * split; [assumption|]. left. now replace n with 0%nat by lia.
      * contradiction.
      * auto.
    + intros d rest ->. cbn [perform] in E.
      destruct d as [d|]; [|exfalso; apply Hn; now left].
      simpl in E. apply perform_keeps in E; [exact E | | discriminate].
      intros Hin. apply Hn. now right.
  - intros results h' H.
    destruct (@perform_bounded dchecks calls _ _ _ _ Hb0 H) as (Hb & Hr).
    simpl in *. split.
    + unfold bounded in Hb. destruct (provider_ h'); lia.
    + intros r Hin. destruct (Hr r Hin) as (Hnn & [Ha|[->|Hc]]); auto.
      contradiction.
Qed.

End HolderSequences.

(** A test double installed between two calls of [GetInstance]. *)
Example double_installed_late (dchecks : bool) :
  perform (fun n => n) dchecks
          [CallGetInstance nat; CallInitializeForTesting (Some 42%nat);
           CallGetInstance nat] (LazyInstance nat) =
  Some ([Some 0%nat; Some 42%nat], mkHolder (Some 42%nat) 1).
Proof. now destruct dchecks. Qed.

(** A null pointer handed over between two calls of [GetInstance]: the
    build with DCHECKs stops, the build without builds a second object. *)
Example null_installed_late :
  perform (fun n => n) true
          [CallGetInstance nat; CallInitializeForTesting None;
           CallGetInstance nat] (LazyInstance nat) = None /\
  perform (fun n => n) false
          [CallGetInstance nat; CallInitializeForTesting None;
           CallGetInstance nat] (LazyInstance nat) =
  Some ([Some 0%nat; Some 1%nat], mkHolder (Some 1%nat) 2).
Proof. split; reflexivity. Qed.

(* ================================================================== *)
(** ** The integrity tests of the diagnostics                          *)
(* ================================================================== *)

Module SqliteTests.

Section Factories.

(** The file names of chrome/common/chrome_constants.h and of the other
    headers the factories take them from, and [base::FilePath::Append]. *)
Variable kWebDataFilename : FilePath.
Variable kCookieFilename : FilePath.
Variable kHistoryFilename : FilePath.
Variable kArchivedHistoryFilename : FilePath.
Variable kThumbnailsFilename : FilePath.
Variable kAppCacheDirname : FilePath.
Variable kAppCacheDatabaseName : FilePath.
Variable kDatabaseDirectoryName : FilePath.
Variable kTrackerDatabaseFileName : FilePath.
Variable Append : FilePath -> FilePath -> FilePath.

(** A [DiagnosticsTest] made by a factory: the id and the title handed to
    the base class, and the members of [SqliteIntegrityTest]. *)
Record DiagnosticsTest : Type := mkDiagnosticsTest {
  id : string;
  title : string;
  integrity_test : SqliteIntegrityTest
}.

(** [new SqliteIntegrityTest(critical, id, title, db_path)] *)
Definition new_SqliteIntegrityTest (critical : bool) (id title : string)
    (db_path : FilePath) : DiagnosticsTest :=
  mkDiagnosticsTest id title (mkSqliteIntegrityTest critical db_path).

Definition kSQLiteIntegrityAppCacheTest := "SQLiteIntegrityAppCache".
Definition kSQLiteIntegrityArchivedHistoryTest :=
  "SQLiteIntegrityArchivedHistory".
Definition kSQLiteIntegrityCookieTest := "SQLiteIntegrityCookie".
Definition kSQLiteIntegrityDatabaseTrackerTest :=
  "SQLiteIntegrityDatabaseTracker".
Definition kSQLiteIntegrityHistoryTest := "SQLiteIntegrityHistory".
Definition kSQLiteIntegrityThumbnailsTest := "SQLiteIntegrityThumbnails".
Definition kSQLiteIntegrityWebTest := "SQLiteIntegrityWeb".

Definition MakeSqliteWebDbTest : DiagnosticsTest :=
  new_SqliteIntegrityTest true kSQLiteIntegrityWebTest "Web Database"
                          kWebDataFilename.

Definition MakeSqliteCookiesDbTest : DiagnosticsTest :=
  new_SqliteIntegrityTest true kSQLiteIntegrityCookieTest "Cookies Database"
                          kCookieFilename.

Definition MakeSqliteHistoryDbTest : DiagnosticsTest :=
  new_SqliteIntegrityTest true kSQLiteIntegrityHistoryTest "History Database"
                          kHistoryFilename.

Definition MakeSqliteArchivedHistoryDbTest : DiagnosticsTest :=
  new_SqliteIntegrityTest false kSQLiteIntegrityArchivedHistoryTest
                          "Archived History Database"
                          kArchivedHistoryFilename.

Definition MakeSqliteThumbnailsDbTest : DiagnosticsTest :=
  new_SqliteIntegrityTest false kSQLiteIntegrityThumbnailsTest
                          "Thumbnails Database" kThumbnailsFilename.

Definition MakeSqliteAppCacheDbTest : DiagnosticsTest :=
  let appcache_dir := kAppCacheDirname in
  let appcache_db := Append appcache_dir kAppCacheDatabaseName in
  new_SqliteIntegrityTest false kSQLiteIntegrityAppCacheTest
                          "Application Cache Database" appcache_db.

Definition MakeSqliteWebDatabaseTrackerDbTest : DiagnosticsTest :=
  let databases_dir := kDatabaseDirectoryName in
  let tracker_db := Append databases_dir kTrackerDatabaseFileName in
  new_SqliteIntegrityTest false kSQLiteIntegrityDatabaseTrackerTest
                          "Database Tracker Database" tracker_db.

(** The tests the factories make, outside Chrome OS. *)
Definition factory_tests : list DiagnosticsTest :=
  [MakeSqliteWebDbTest; MakeSqliteCookiesDbTest; MakeSqliteHistoryDbTest;
   MakeSqliteArchivedHistoryDbTest; MakeSqliteThumbnailsDbTest;
   MakeSqliteAppCacheDbTest; MakeSqliteWebDatabaseTrackerDbTest].

End Factories.

End SqliteTests.

Section IntegrityEdges.

Variable IsAbsolute : FilePath -> bool.
Variable Append : FilePath -> FilePath -> FilePath.
Variable GetUserDefaultProfileDir : FilePath.
Variable PathExists : FilePath -> bool.
Variable sqlite : FilePath -> Database.

Local Abbreviation resolved :=
  (resolved_path IsAbsolute Append GetUserDefaultProfileDir).
Local Abbreviation Execute :=
  (ExecuteImpl IsAbsolute Append GetUserDefaultProfileDir PathExists sqlite).

Lemma recorder_keeps_last (es : list SqliteError) (e : SqliteError)
    (r : ErrorRecorder) :
  fold_left RecordSqliteError (es ++ [e])%list r =
  mkErrorRecorder true (sqlite_error e) (last_errno e) (message e).
Proof. now rewrite fold_left_app. Qed.

Lemma count_errors_zero (rows : list string) :
  count_errors rows = 0 <-> forall r, In r rows -> r = "ok".
Proof.
  rewrite count_errors_filter. split.
  - intros H r Hin.
    destruct (String.eqb_spec r "ok") as [|Hne]; [assumption|].
    assert (Hf : In r (filter (fun r => negb (r =? "ok")%string) rows)).
    { apply filter_In. split; [assumption|].
      apply negb_true_iff. now apply String.eqb_neq. }
    destruct (filter (fun r => negb (r =? "ok")%string) rows);
      [contradiction | simpl in H; lia].
  - intros H. induction rows as [|r rows IH]; [reflexivity|]. simpl.
    rewrite (H r (or_introl eq_refl)). simpl.
    apply IH. intros r' Hin. apply H. now right.
Qed.

(** X15.  [ExecuteImpl] returns false in one situation only: the file
    exists, the database opens, the error handler has not been called, and
    the integrity pragma could not be prepared.  In every other case,
    failures included, it returns true. *)
Theorem returns_false_iff (t : SqliteIntegrityTest) :
  let db := sqlite (resolved t) in
  snd (Execute t) = false <->
  PathExists (resolved t) = true /\ Open db = true /\
  Open_errors db = [] /\ GetUniqueStatement_errors db = [] /\
  is_valid db = false.
Proof.
  cbv zeta. unfold ExecuteImpl. rewrite !has_error_fold.
  change (has_error ErrorRecorder_new) with false.
  destruct (critical_ t), (PathExists (resolved t)),
    (Open (sqlite (resolved t))),
    (Open_errors (sqlite (resolved t))),
    (GetUniqueStatement_errors (sqlite (resolved t))),
    (is_valid (sqlite (resolved t))),
    (Step_errors (sqlite (resolved t))); simpl;
    repeat match goal with
           | |- context [if ?c then _ else _] => destruct c
           end; simpl;
    (split; [intros H; try discriminate; repeat split; reflexivity
            | intros (? & ? & ? & ? & ?); try discriminate; reflexivity]).
Qed.

(** X16.  The test reports success exactly when the file exists, the
    database opens, the pragma is prepared, the error handler is never
    called and every row the pragma yields is "ok"; a pragma that yields no
    row at all counts as success. *)
Theorem success_iff_all_rows_ok (t : SqliteIntegrityTest) :
  let db := sqlite (resolved t) in
  fst (Execute t) = RecordSuccess "No corruption detected" <->
  PathExists (resolved t) = true /\ Open db = true /\
  Open_errors db = [] /\ GetUniqueStatement_errors db = [] /\
  is_valid db = true /\ Step_errors db = [] /\
  (forall r, In r (Step_rows db) -> r = "ok").
Proof.
  cbv zeta. rewrite <- count_errors_zero.
  unfold ExecuteImpl. rewrite !has_error_fold.
  change (has_error ErrorRecorder_new) with false.
  destruct (Z.eqb_spec (count_errors (Step_rows (sqlite (resolved t)))) 0)
    as [Hz|Hz];
  destruct (critical_ t), (PathExists (resolved t)),
    (Open (sqlite (resolved t))),
    (Open_errors (sqlite (resolved t))),
    (GetUniqueStatement_errors (sqlite (resolved t))),
    (is_valid (sqlite (resolved t))),
    (Step_errors (sqlite (resolved t))); simpl;
    repeat match goal with
           | |- context [if ?c then _ else _] => destruct c
           end; simpl;
    (split; [intros H; try discriminate; repeat split; auto
            | intros (? & ? & ? & ? & ? & ? & ?); try discriminate;
              try congruence; reflexivity]).
Qed.

(** X17.  When the error handler is called several times during one stage
    of the test, the failure recorded describes the last call (its SQLite
    error, its errno and its message) and [ExecuteImpl] returns true,
    whatever the later stages would have found. *)
Theorem error_handler_reports_last_error (t : SqliteIntegrityTest)
    (es : list SqliteError) (e : SqliteError) :
  let db := sqlite (resolved t) in
  let report :=
    (RecordFailure DIAG_SQLITE_ERROR_HANDLER_CALLED
       ("SQLite error: " ++ IntToString (sqlite_error e) ++
        ", Last Errno: " ++ IntToString (last_errno e) ++
        ": " ++ message e), true) in
  PathExists (resolved t) = true -> Open db = true ->
  (Open_errors db = (es ++ [e])%list -> Execute t = report) /\
  (Open_errors db = [] ->
   GetUniqueStatement_errors db = (es ++ [e])%list -> Execute t = report) /\
  (Open_errors db = [] -> GetUniqueStatement_errors db = [] ->
   is_valid db = true -> Step_errors db = (es ++ [e])%list ->
   Execute t = report).
Proof.
  cbv zeta. intros Hex Hop. unfold ExecuteImpl. rewrite Hex, Hop. simpl negb.
  cbv iota. split; [|split].
  - intros H. rewrite H, recorder_keeps_last. reflexivity.
  - intros H1 H2. rewrite H1, H2. simpl fold_left at 1.
    change (has_error ErrorRecorder_new) with false. cbv iota.
    rewrite recorder_keeps_last. reflexivity.
  - intros H1 H2 Hv H3. rewrite H1, H2, Hv, H3. simpl fold_left at 1.
    change (has_error ErrorRecorder_new) with false. cbv iota.
    simpl fold_left at 1.
    change (has_error ErrorRecorder_new) with false. cbv iota.
    simpl negb. cbv iota.
    rewrite recorder_keeps_last. reflexivity.
Qed.

(** X18.  A test given a relative path does what the test given that path
    under the profile directory does, provided the joined path is absolute;
    and for a test given an absolute path the profile directory does not
    matter. *)
Theorem relative_path_under_profile (t : SqliteIntegrityTest) :
  (IsAbsolute (db_path_ t) = false ->
   IsAbsolute (Append GetUserDefaultProfileDir (db_path_ t)) = true ->
   Execute t =
   Execute (mkSqliteIntegrityTest
              (critical_ t)
              (Append GetUserDefaultProfileDir (db_path_ t)))) /\
  (IsAbsolute (db_path_ t) = true ->
   forall other_profile_dir,
     Execute t =
     ExecuteImpl IsAbsolute Append other_profile_dir PathExists sqlite t).
Proof.
  split.
  - intros Hrel Habs. unfold ExecuteImpl, resolved_path. simpl.
    now rewrite Hrel, Habs.
  - intros Habs other. unfold ExecuteImpl, resolved_path. now rewrite Habs.
Qed.

(** X19.  When its database file is missing, the web, cookie and history
    tests record a failure, and the archived history, thumbnails,
    application cache and database tracker tests record that the file is
    not found but that this is OK; all seven return true. *)
Theorem missing_file_by_factory
    (kWebDataFilename kCookieFilename kHistoryFilename
     kArchivedHistoryFilename kThumbnailsFilename kAppCacheDirname
     kAppCacheDatabaseName kDatabaseDirectoryName kTrackerDatabaseFileName
     : FilePath)
    (d : SqliteTests.DiagnosticsTest) :
  let web := SqliteTests.MakeSqliteWebDbTest kWebDataFilename in
  let cookies := SqliteTests.MakeSqliteCookiesDbTest kCookieFilename in
  let history := SqliteTests.MakeSqliteHistoryDbTest kHistoryFilename in
  In d (SqliteTests.factory_tests
          kWebDataFilename kCookieFilename kHistoryFilename
          kArchivedHistoryFilename kThumbnailsFilename kAppCacheDirname
          kAppCacheDatabaseName kDatabaseDirectoryName
          kTrackerDatabaseFileName Append) ->
  PathExists (resolved (SqliteTests.integrity_test d)) = false ->
  (d = web \/ d = cookies \/ d = history ->
   Execute (SqliteTests.integrity_test d) =
   (RecordOutcome DIAG_SQLITE_FILE_NOT_FOUND "File not found"
                  TEST_FAIL_CONTINUE, true)) /\
  (d <> web -> d <> cookies -> d <> history ->
   Execute (SqliteTests.integrity_test d) =
   (RecordOutcome DIAG_SQLITE_FILE_NOT_FOUND_OK
                  "File not found (but that is OK)" TEST_OK, true)).
Proof.
  cbv zeta. intros Hin Hmiss. unfold ExecuteImpl. rewrite Hmiss. simpl negb.
  cbv iota. split.
  - intros [-> | [-> | ->]]; reflexivity.
  - intros H1 H2 H3. simpl in Hin.
    destruct Hin as [<- | [<- | [<- | [<- | [<- | [<- | [<- | []]]]]]]];
      try reflexivity; contradiction.
Qed.

End IntegrityEdges.

(* ================================================================== *)
(** ** Sample hosts, and the theorems above on them                    *)
(* ================================================================== *)

Module PepperSamples.

Import PepperFileRef.

(** File systems 0 and 1 are local, every other one is external; a path is
    valid when it starts with a slash. *)
Definition fs_type (fs : nat) : PP_FileSystemType :=
  match fs with
  | 0%nat => PP_FILESYSTEMTYPE_LOCALPERSISTENT
  | 1%nat => PP_FILESYSTEMTYPE_LOCALTEMPORARY
  | _ => PP_FILESYSTEMTYPE_EXTERNAL
  end.

Definition starts_with_slash (path : string) : bool :=
  match path with
  | String "/"%char _ => true
  | _ => false
  end.

(** A backend that grants reading and writing and refuses creating, with
    7 for the refusal, and that answers -1 to every call. *)
Definition grants (b : Backend nat) (permissions : Z) : Z :=
  if permissions <=? 3 then 0 else -7.

Definition pending (b : Backend nat) (call : BackendCall Z unit nat) : Z :=
  -1.

Definition no_string (b : Backend nat) : string := EmptyString.

(** A file ref on file system 0 for instance 1, one without backend, and a
    plugin process in which instance 1 is known, resource 5 is file system
    0, resource 6 is file system 2, resource 7 is the first file ref and
    resource 8 the second, and which has the private permission. *)
Definition file_ref : PepperFileRefHost nat :=
  mkPepperFileRefHost PP_FILESYSTEMTYPE_LOCALPERSISTENT
    (Some (PepperInternalFileRefBackend 10 0%nat "/a")).

Definition dead_ref : PepperFileRefHost nat :=
  mkPepperFileRefHost PP_FILESYSTEMTYPE_INVALID None.

Definition plugin : BrowserPpapiHost nat :=
  mkBrowserPpapiHost
    (fun instance => if instance =? 1 then Some (10, 20) else None)
    (fun resource =>
       if resource =? 5 then Some (FileSystemResource 0%nat)
       else if resource =? 6 then Some (FileSystemResource 2%nat)
       else if resource =? 7 then Some (FileRefResource file_ref)
       else if resource =? 8 then Some (FileRefResource dead_ref)
       else None)
    true.

(** The functions of the file with the result codes 0, -2, -5 and -7, the
    permission masks 1, 2 and 4, and the backend above. *)
Definition received :=
  OnResourceMessageReceived (PP_Time := Z) (fun context : unit => context)
    0 (-2) (-5) (-7) 1 2 4 grants pending.

Definition built (instance file_system : Z) (path : string)
  : PepperFileRefHost nat :=
  new_internal fs_type starts_with_slash plugin instance 100 file_system path.

End PepperSamples.

Import PepperSamples.

(** The constructor on the sample process: a local file system gives a
    backend, an external one gives the type without a backend, an unknown
    resource gives neither. *)
Example built_on_local : built 1 5 "/a" = file_ref.
Proof. reflexivity. Qed.

Example built_on_external :
  built 1 6 "/a" =
  PepperFileRef.mkPepperFileRefHost PepperFileRef.PP_FILESYSTEMTYPE_EXTERNAL
                                    None.
Proof. reflexivity. Qed.

Example built_on_nothing : built 1 9 "/a" = dead_ref.
Proof. reflexivity. Qed.

Lemma refused_host_is_inert_witness :
  starts_with_slash "a" = false /\
  forall msg context, received plugin (built 1 5 "a") msg context =
                      Some (-2, []).
Proof.
  split; [reflexivity|].
  exact (proj1 (@PepperFileRef.refused_host_is_inert Z unit unit
                  (fun context => context) nat fs_type 0 (-2) (-5) (-7) 1 2 4
                  starts_with_slash grants pending no_string no_string
                  plugin 1 100 5 "a" (or_introl eq_refl))).
Defined.

Lemma handlers_without_backend_witness :
  PepperFileRef.OnDelete (PP_Time := Z) (fun context : unit => context)
    0 (-2) 2 grants pending dead_ref tt = Some (-2, []).
Proof.
  assert (H : -2 <> 0) by discriminate.
  exact (proj1 (proj2 (proj2
           (@PepperFileRef.handlers_without_backend Z unit unit
              (fun context => context) nat 0 (-2) (-5) (-7) 1 2 4
              grants pending plugin dead_ref tt H eq_refl)))).
Defined.

Lemma backend_call_is_authorised_witness :
  exists backend,
    PepperFileRef.backend_ file_ref = Some backend /\
    grants backend 1 = 0.
Proof.
  destruct (@PepperFileRef.backend_call_is_authorised Z unit unit
              (fun context => context) nat 0 (-2) (-5) (-7) 1 2 4
              grants pending plugin file_ref
              (PepperFileRef.PpapiHostMsg_FileRef_Query Z) tt
              (-1) [@PepperFileRef.Query Z unit nat tt]
              (@PepperFileRef.Query Z unit nat tt)
              eq_refl (or_introl eq_refl))
    as (backend & Hb & _ & _ & _ & Hp & _).
  exists backend. exact (conj Hb (Hp 1 eq_refl)).
Defined.

Lemma refused_permission_is_returned_witness :
  received plugin file_ref
    (PepperFileRef.PpapiHostMsg_FileRef_MakeDirectory Z true) tt =
  Some (-7, []).
Proof.
  assert (H : -7 <> 0) by discriminate.
  exact (@PepperFileRef.refused_permission_is_returned Z unit unit
           (fun context => context) nat 0 (-2) (-5) (-7) 1 2 4
           grants pending plugin file_ref
           (PepperFileRef.PepperInternalFileRefBackend 10 0%nat "/a")
           (PepperFileRef.PpapiHostMsg_FileRef_MakeDirectory Z true) tt 4
           eq_refl eq_refl H).
Defined.

Lemma rename_outcomes_witness :
  received plugin file_ref (PepperFileRef.PpapiHostMsg_FileRef_Rename Z 9)
           tt = Some (-5, []).
Proof.
  exact (proj1 (@PepperFileRef.rename_outcomes Z unit unit
                  (fun context => context) nat 0 (-2) (-5) (-7) 1 2 4
                  grants pending plugin file_ref
                  (PepperFileRef.PepperInternalFileRefBackend 10 0%nat "/a")
                  tt 9 eq_refl eq_refl) eq_refl).
Defined.

Example rename_onto_dead_ref :
  received plugin file_ref (PepperFileRef.PpapiHostMsg_FileRef_Rename Z 8)
           tt = Some (-2, []).
Proof. reflexivity. Qed.

(** The sample process has the private permission: the absolute path of a
    file ref is asked of the backend. *)
Example absolute_path_in_private_process :
  received plugin file_ref
           (PepperFileRef.PpapiHostMsg_FileRef_GetAbsolutePath Z) tt =
  Some (-1, [@PepperFileRef.GetAbsolutePath Z unit nat tt]).
Proof. reflexivity. Qed.

Lemma absolute_path_needs_private_only_witness :
  PepperFileRef.backend_ file_ref =
    Some (PepperFileRef.PepperInternalFileRefBackend 10 0%nat "/a") /\
  ((forall permissions,
       grants (PepperFileRef.PepperInternalFileRefBackend 10 0%nat "/a")
              permissions = 0) ->
   PepperFileRef.HasPermission_PRIVATE plugin = false ->
   received plugin file_ref
            (PepperFileRef.PpapiHostMsg_FileRef_GetAbsolutePath Z) tt =
   Some (-7, [])).
Proof.
  split; [reflexivity|].
  exact (proj2 (@PepperFileRef.absolute_path_needs_private_only Z unit unit
                  (fun context => context) nat 0 (-2) (-5) (-7) 1 2 4
                  grants pending plugin file_ref
                  (PepperFileRef.PepperInternalFileRefBackend 10 0%nat "/a")
                  tt eq_refl)).
Defined.

Module IntegritySamples.

(** A database whose opening calls the error handler twice. *)
Definition noisy_database (path : string) : Database :=
  mkDatabase true
    [mkSqliteError 14 2 "unable to open database file";
     mkSqliteError 11 5 "database disk image is malformed"]
    true [] 0 ["ok"] [].

(** A file system without any file. *)
Definition no_file (path : string) : bool := false.

End IntegritySamples.

Import IntegritySamples.

Lemma error_handler_reports_last_error_witness :
  ExecuteImpl absolute join "/p" only_web_data noisy_database web_data_test =
  (RecordFailure DIAG_SQLITE_ERROR_HANDLER_CALLED
     "SQLite error: 11, Last Errno: 5: database disk image is malformed",
   true).
Proof.
  exact (proj1 (@error_handler_reports_last_error absolute join "/p"
                  only_web_data noisy_database web_data_test
                  [mkSqliteError 14 2 "unable to open database file"]
                  (mkSqliteError 11 5 "database disk image is malformed")
                  eq_refl eq_refl) eq_refl).
Defined.

Lemma missing_file_by_factory_witness :
  ExecuteImpl absolute join "/p" no_file sound_database
    (SqliteTests.integrity_test
       (SqliteTests.MakeSqliteThumbnailsDbTest "Thumbnails")) =
  (RecordOutcome DIAG_SQLITE_FILE_NOT_FOUND_OK
                 "File not found (but that is OK)" TEST_OK, true).
Proof.
  refine (proj2 (@missing_file_by_factory absolute join "/p" no_file
                   sound_database "Web Data" "Cookies" "History"
                   "Archived History" "Thumbnails" "Application Cache"
                   "Index" "databases" "Databases.db"
                   (SqliteTests.MakeSqliteThumbnailsDbTest "Thumbnails")
                   _ eq_refl) _ _ _); try discriminate.
  simpl. tauto.
Defined.
